(** * Scan-event aggregation of the barcode-to-spreadsheet page

    A shallow embedding of the [Home] component of [src/app/page.tsx]
    (the revision with the window-level keydown listener, the scan
    buffer refs and the auto-save timer) and of the camera revision in
    [src/unnamed/part_000].

    Conventions of the embedding.
    - A JavaScript string is the list of its UTF-16 code units.
    - [Date.now()] is an integer number of milliseconds, passed to each
      handler as [now]; one event reads one instant.
    - React state ([useState]) and refs ([useRef]) are fields of one
      record.  A handler writes the state fields through the setters;
      [commit] is the re-render that follows a handler and runs the
      effects ([scannedItemsRef] is synchronised, the keydown
      subscription is renewed when [isScanning] changed).
    - The browser's pending [setTimeout] timers are a list held in the
      record; [clearTimeout] deletes from it and an expired timer is an
      event of its own.
    - Focus management ([inputRef], the focus timers and the
      [keepFocused] interval) only acts on the DOM and is left out. *)

From Stdlib Require Import List ZArith NArith PArith Bool Lia.
From Stdlib Require Import Ascii String DecimalString DecimalZ.
From Stdlib Require Import Sorted.
Import ListNotations.

Local Open Scope Z_scope.

(* ================================================================= *)
(** ** JavaScript strings *)

Definition jsstring := list N.

(** A literal, written as a Rocq string of Latin-1 characters. *)
Definition js (s : string) : jsstring :=
  map N_of_ascii (list_ascii_of_string s).

(** [a === b] on strings. *)
Fixpoint jsstring_eqb (a b : jsstring) : bool :=
  match a, b with
  | [], [] => true
  | x :: a', y :: b' => N.eqb x y && jsstring_eqb a' b'
  | _, _ => false
  end.

(** Truthiness of a string: every string but the empty one. *)
Definition truthy (s : jsstring) : bool :=
  match s with [] => false | _ :: _ => true end.

(** The code units [String.prototype.trim] strips: ECMAScript
    WhiteSpace and LineTerminator. *)
Definition isWhiteSpace (c : N) : bool :=
  match c with
  | 9 | 10 | 11 | 12 | 13 | 32 | 160 | 5760
  | 8192 | 8193 | 8194 | 8195 | 8196 | 8197 | 8198 | 8199 | 8200
  | 8201 | 8202 | 8232 | 8233 | 8239 | 8287 | 12288 | 65279 => true
  | _ => false
  end%N.

Fixpoint trimStart (s : jsstring) : jsstring :=
  match s with
  | [] => []
  | c :: r => if isWhiteSpace c then trimStart r else s
  end.

Fixpoint trimEnd (s : jsstring) : jsstring :=
  match s with
  | [] => []
  | c :: r =>
      match trimEnd r with
      | [] => if isWhiteSpace c then [] else [c]
      | r' => c :: r'
      end
  end.

Definition trim (s : jsstring) : jsstring := trimEnd (trimStart s).

(** [Number.prototype.toString] on an integer: its decimal numeral. *)
Definition toString (z : Z) : jsstring :=
  js (NilEmpty.string_of_int (Z.to_int z)).

(** The number a decimal numeral denotes ([Number(id)]), when it is one. *)
Definition toNumber (s : jsstring) : option Z :=
  option_map Z.of_int
    (NilEmpty.int_of_string (string_of_list_ascii (map ascii_of_N s))).

(* ================================================================= *)
(** ** Data model *)

(** [interface ScannedItem]; [timestamp] is the instant of the [Date]. *)
Record ScannedItem := mkItem {
  id : jsstring;
  serialNumber : jsstring;
  timestamp : Z
}.

Inductive MessageType := success | error.

Record Message := mkMessage {
  type : MessageType;
  text : jsstring
}.

Record KeyboardEvent := mkKey {
  key : jsstring;
  ctrlKey : bool;
  metaKey : bool;
  altKey : bool
}.

(** The key of a plain key press with no modifier held. *)
Definition press (k : jsstring) : KeyboardEvent := mkKey k false false false.

Definition Enter : jsstring := js "Enter".

(** [scannedItems.some(item => item.serialNumber === v)] *)
Definition alreadyScanned (items : list ScannedItem) (v : jsstring) : bool :=
  existsb (fun item => jsstring_eqb (serialNumber item) v) items.

(** The record built in every revision: [{ id: Date.now().toString(),
    serialNumber, timestamp: new Date() }].  The literal reads the clock
    twice; both reads are taken at the instant [now] of the event, and
    nothing below rests on the two fields agreeing. *)
Definition newItem (serial : jsstring) (now : Z) : ScannedItem :=
  mkItem (toString now) serial now.

Definition duplicateText (v : jsstring) : jsstring :=
  js "Serial number " ++ v ++ js " already scanned!".

Definition scannedText (v : jsstring) : jsstring := js "Scanned: " ++ v.

(* ================================================================= *)
(** ** Timers *)

Definition handle := positive.

(** What a pending timer does when it expires. *)
Inductive TimerCallback :=
| AutoSave       (* the auto-save closure of handleGlobalKeyDown *)
| ClearMessage.  (* () => setMessage(null) *)

Record Timer := mkTimer {
  timerHandle : handle;
  due : Z;
  callback : TimerCallback
}.

Definition isAutoSave (t : Timer) : bool :=
  match callback t with AutoSave => true | ClearMessage => false end.

(** [clearTimeout(h)] on the list of pending timers. *)
Definition cancel (h : handle) (ts : list Timer) : list Timer :=
  filter (fun t => negb (Pos.eqb (timerHandle t) h)) ts.

Definition findTimer (h : handle) (ts : list Timer) : option Timer :=
  find (fun t => Pos.eqb (timerHandle t) h) ts.

(** The auto-save timers still pending. *)
Definition pendingAutoSave (ts : list Timer) : list Timer :=
  filter isAutoSave ts.

Notation "s |> f" := (f s) (at level 68, left associativity, only parsing).

(* ================================================================= *)
(** ** The keyboard page: [Home] of src/app/page.tsx *)

Module Page.

(** The hooks of the component, the closure variable of the installed
    keydown listener, and the browser's timer table. *)
Record Home := mkHome {
  scannedItems : list ScannedItem;        (* useState([])    *)
  isScanning : bool;                      (* useState(true)  *)
  message : option Message;               (* useState(null)  *)
  currentScan : jsstring;                 (* useState('')    *)
  scanBufferRef : jsstring;               (* useRef('')      *)
  lastKeyTimeRef : Z;                     (* useRef(0)       *)
  scannedItemsRef : list ScannedItem;     (* useRef([])      *)
  autoSaveTimeoutRef : option handle;     (* useRef(null)    *)
  listenerIsScanning : bool;   (* isScanning as closed over by the
                                  handleGlobalKeyDown now subscribed *)
  timers : list Timer;         (* pending setTimeout timers *)
  nextHandle : handle          (* the handle setTimeout returns next *)
}.

(** The component after its first render and effects. *)
Definition initial : Home :=
  mkHome [] true None [] [] 0 [] None true [] 1%positive.

Definition setScannedItems (f : list ScannedItem -> list ScannedItem)
  (s : Home) : Home :=
  mkHome (f (scannedItems s)) (isScanning s) (message s) (currentScan s)
    (scanBufferRef s) (lastKeyTimeRef s) (scannedItemsRef s)
    (autoSaveTimeoutRef s) (listenerIsScanning s) (timers s) (nextHandle s).

Definition setIsScanning (f : bool -> bool) (s : Home) : Home :=
  mkHome (scannedItems s) (f (isScanning s)) (message s) (currentScan s)
    (scanBufferRef s) (lastKeyTimeRef s) (scannedItemsRef s)
    (autoSaveTimeoutRef s) (listenerIsScanning s) (timers s) (nextHandle s).

Definition setMessage (m : option Message) (s : Home) : Home :=
  mkHome (scannedItems s) (isScanning s) m (currentScan s)
    (scanBufferRef s) (lastKeyTimeRef s) (scannedItemsRef s)
    (autoSaveTimeoutRef s) (listenerIsScanning s) (timers s) (nextHandle s).

Definition setCurrentScan (v : jsstring) (s : Home) : Home :=
  mkHome (scannedItems s) (isScanning s) (message s) v
    (scanBufferRef s) (lastKeyTimeRef s) (scannedItemsRef s)
    (autoSaveTimeoutRef s) (listenerIsScanning s) (timers s) (nextHandle s).

Definition setScanBufferRef (v : jsstring) (s : Home) : Home :=
  mkHome (scannedItems s) (isScanning s) (message s) (currentScan s)
    v (lastKeyTimeRef s) (scannedItemsRef s)
    (autoSaveTimeoutRef s) (listenerIsScanning s) (timers s) (nextHandle s).

Definition setLastKeyTimeRef (t : Z) (s : Home) : Home :=
  mkHome (scannedItems s) (isScanning s) (message s) (currentScan s)
    (scanBufferRef s) t (scannedItemsRef s)
    (autoSaveTimeoutRef s) (listenerIsScanning s) (timers s) (nextHandle s).

Definition setScannedItemsRef (l : list ScannedItem) (s : Home) : Home :=
  mkHome (scannedItems s) (isScanning s) (message s) (currentScan s)
    (scanBufferRef s) (lastKeyTimeRef s) l
    (autoSaveTimeoutRef s) (listenerIsScanning s) (timers s) (nextHandle s).

Definition setAutoSaveTimeoutRef (h : option handle) (s : Home) : Home :=
  mkHome (scannedItems s) (isScanning s) (message s) (currentScan s)
    (scanBufferRef s) (lastKeyTimeRef s) (scannedItemsRef s)
    h (listenerIsScanning s) (timers s) (nextHandle s).

Definition setListenerIsScanning (b : bool) (s : Home) : Home :=
  mkHome (scannedItems s) (isScanning s) (message s) (currentScan s)
    (scanBufferRef s) (lastKeyTimeRef s) (scannedItemsRef s)
    (autoSaveTimeoutRef s) b (timers s) (nextHandle s).

Definition setTimers (ts : list Timer) (s : Home) : Home :=
  mkHome (scannedItems s) (isScanning s) (message s) (currentScan s)
    (scanBufferRef s) (lastKeyTimeRef s) (scannedItemsRef s)
    (autoSaveTimeoutRef s) (listenerIsScanning s) ts (nextHandle s).

(** [setTimeout(cb, delay)] called at [now]: the timer is pending from
    now on and its handle is returned. *)
Definition setTimeout (cb : TimerCallback) (delay now : Z) (s : Home)
  : handle * Home :=
  (nextHandle s,
   mkHome (scannedItems s) (isScanning s) (message s) (currentScan s)
     (scanBufferRef s) (lastKeyTimeRef s) (scannedItemsRef s)
     (autoSaveTimeoutRef s) (listenerIsScanning s)
     (timers s ++ [mkTimer (nextHandle s) (now + delay) cb])
     (Pos.succ (nextHandle s))).

Definition clearTimeout (h : handle) (s : Home) : Home :=
  setTimers (cancel h (timers s)) s.

(** [setTimeout(() => setMessage(null), delay)] *)
Definition clearMessageLater (delay now : Z) (s : Home) : Home :=
  snd (setTimeout ClearMessage delay now s).

(** [if (autoSaveTimeoutRef.current) { clearTimeout(autoSaveTimeoutRef.current);
    autoSaveTimeoutRef.current = null }] *)
Definition clearAutoSaveTimeout (s : Home) : Home :=
  match autoSaveTimeoutRef s with
  | Some h => s |> clearTimeout h |> setAutoSaveTimeoutRef None
  | None => s
  end.

(** [saveScannedBarcode], page.tsx 246-279. *)
Definition saveScannedBarcode (scannedValue : jsstring) (now : Z) (s : Home)
  : Home :=
  if negb (truthy (trim scannedValue)) then s
  else
    let s1 :=
      if alreadyScanned (scannedItemsRef s) (trim scannedValue) then
        s |> setMessage
               (Some (mkMessage error (duplicateText (trim scannedValue))))
          |> clearMessageLater 2000 now
      else
        s |> setScannedItems
               (fun prev => prev ++ [newItem (trim scannedValue) now])
          |> setMessage
               (Some (mkMessage success (scannedText (trim scannedValue))))
          |> clearMessageLater 2000 now in
    s1 |> setScanBufferRef []
       |> setCurrentScan []
       |> clearAutoSaveTimeout.

(** The test of the character branch:
    [e.key.length === 1 && !e.ctrlKey && !e.metaKey && !e.altKey]. *)
Definition isCharacterInput (e : KeyboardEvent) : bool :=
  Nat.eqb (List.length (key e)) 1
  && negb (ctrlKey e) && negb (metaKey e) && negb (altKey e).

(** [handleGlobalKeyDown], page.tsx 299-352.  The auto-save closure it
    passes to [setTimeout] is [autoSaveCallback] below. *)
Definition handleGlobalKeyDown (e : KeyboardEvent) (now : Z) (s : Home)
  : Home :=
  if negb (listenerIsScanning s) then s
  else
    let timeSinceLastKey := now - lastKeyTimeRef s in
    if jsstring_eqb (key e) Enter then
      let scannedValue := scanBufferRef s in
      if truthy scannedValue then saveScannedBarcode scannedValue now s
      else s
    else if isCharacterInput e then
      let s1 :=
        if timeSinceLastKey >? 500
        then s |> setScanBufferRef [] |> clearAutoSaveTimeout
        else s in
      let s2 := s1 |> setScanBufferRef (scanBufferRef s1 ++ key e) in
      let s3 := s2 |> setCurrentScan (scanBufferRef s2)
                   |> setLastKeyTimeRef now in
      let s4 :=
        match autoSaveTimeoutRef s3 with
        | Some h => clearTimeout h s3
        | None => s3
        end in
      let (h, s5) := setTimeout AutoSave 200 now s4 in
      setAutoSaveTimeoutRef (Some h) s5
    else s.

(** The closure armed at page.tsx 340-345. *)
Definition autoSaveCallback (now : Z) (s : Home) : Home :=
  let valueToSave := scanBufferRef s in
  if truthy valueToSave && Nat.ltb 0 (List.length valueToSave)
  then saveScannedBarcode valueToSave now s
  else s.

(** [toggleScanning], page.tsx 373-382. *)
Definition toggleScanning (s : Home) : Home :=
  s |> setIsScanning negb |> setScanBufferRef [] |> setCurrentScan [].

(** [removeItem], page.tsx 404-406. *)
Definition removeItem (i : jsstring) (s : Home) : Home :=
  setScannedItems
    (fun prev => filter (fun item => negb (jsstring_eqb (id item) i)) prev) s.

(** [clearAll], page.tsx 408-414; [confirmed] is the answer to
    [confirm(...)]. *)
Definition clearAll (confirmed : bool) (now : Z) (s : Home) : Home :=
  if confirmed then
    s |> setScannedItems (fun _ => [])
      |> setMessage (Some (mkMessage success (js "All items cleared")))
      |> clearMessageLater 2000 now
  else s.

(** The state changes of [downloadExcel], page.tsx 416-448; the
    workbook itself is written by the XLSX library and [fileName] is the
    dated name computed for it. *)
Definition downloadExcel (fileName : jsstring) (now : Z) (s : Home) : Home :=
  if Nat.eqb (List.length (scannedItems s)) 0 then
    setMessage (Some (mkMessage error (js "No serial numbers to export!"))) s
  else
    s |> setMessage
           (Some (mkMessage success (js "Excel file downloaded: " ++ fileName)))
      |> clearMessageLater 3000 now.

(** The re-render after a handler and its effects: page.tsx 241-243
    copies the list into [scannedItemsRef]; when [isScanning] changed,
    the cleanup of the keydown effect (357-363) clears the auto-save
    timer, without resetting the ref, and the effect subscribes a
    listener closed over the new value. *)
Definition commit (s : Home) : Home :=
  let s1 := setScannedItemsRef (scannedItems s) s in
  if Bool.eqb (isScanning s1) (listenerIsScanning s1) then s1
  else
    let s2 :=
      match autoSaveTimeoutRef s1 with
      | Some h => clearTimeout h s1
      | None => s1
      end in
    setListenerIsScanning (isScanning s2) s2.

(** What a pending timer runs. *)
Definition runCallback (cb : TimerCallback) (now : Z) (s : Home) : Home :=
  match cb with
  | AutoSave => autoSaveCallback now s
  | ClearMessage => setMessage None s
  end.

(** The browser runs timer [h] at [now]: only a pending timer, and not
    before it is due. *)
Definition expire (h : handle) (now : Z) (s : Home) : option Home :=
  match findTimer h (timers s) with
  | Some t =>
      if due t <=? now
      then Some (runCallback (callback t) now (clearTimeout h s))
      else None
  | None => None
  end.

(** What can happen to the page. *)
Inductive Event :=
| KeyDown (e : KeyboardEvent) (now : Z)
| TimerExpired (h : handle) (now : Z)
| ToggleClick
| RemoveClick (i : jsstring)
| ClearAllClick (confirmed : bool) (now : Z)
| DownloadClick (fileName : jsstring) (now : Z)
| InputChange (value : jsstring).

(** One event: its handler, then the re-render.  [None] when the event
    cannot happen in [s]. *)
Definition dispatch (ev : Event) (s : Home) : option Home :=
  option_map commit
    match ev with
    | KeyDown e now => Some (handleGlobalKeyDown e now s)
    | TimerExpired h now => expire h now s
    | ToggleClick => Some (toggleScanning s)
    | RemoveClick i => Some (removeItem i s)
    | ClearAllClick confirmed now => Some (clearAll confirmed now s)
    | DownloadClick fileName now => Some (downloadExcel fileName now s)
    | InputChange value => Some (setCurrentScan value s)
    end.

(** A run of events, stopping at the first one that cannot happen. *)
Fixpoint run (evs : list Event) (s : Home) : option Home :=
  match evs with
  | [] => Some s
  | ev :: rest =>
      match dispatch ev s with
      | Some s' => run rest s'
      | None => None
      end
  end.

Inductive reachable : Home -> Prop :=
| reachable_initial : reachable initial
| reachable_dispatch s ev s' :
    reachable s -> dispatch ev s = Some s' -> reachable s'.

(** Typing the keys [ks], each a plain key press with its arrival time. *)
Definition keyDowns (ks : list (jsstring * Z)) : list Event :=
  map (fun k => KeyDown (press (fst k)) (snd k)) ks.

End Page.

(* ================================================================= *)
(** ** The camera page: [Home] of src/unnamed/part_000 *)

Module Camera.

(** [scannerRef] holds the running [Html5Qrcode] instance.  What
    matters of it is the success callback handed to [start]: the arrow
    function [(decodedText) => { handleScanSuccess(decodedText) }],
    whose [handleScanSuccess] is the one of the render in which
    [startScanning] was created, closed over that render's
    [scannedItems].  The field keeps that list. *)
Record Home := mkHome {
  scannedItems : list ScannedItem;        (* useState([])    *)
  isScanning : bool;                      (* useState(false) *)
  message : option Message;               (* useState(null)  *)
  scannerRef : option (list ScannedItem); (* useRef(null)    *)
  timers : list Timer;
  nextHandle : handle
}.

Definition initial : Home := mkHome [] false None None [] 1%positive.

Definition setScannedItems (f : list ScannedItem -> list ScannedItem)
  (s : Home) : Home :=
  mkHome (f (scannedItems s)) (isScanning s) (message s) (scannerRef s)
    (timers s) (nextHandle s).

Definition setIsScanning (b : bool) (s : Home) : Home :=
  mkHome (scannedItems s) b (message s) (scannerRef s)
    (timers s) (nextHandle s).

Definition setMessage (m : option Message) (s : Home) : Home :=
  mkHome (scannedItems s) (isScanning s) m (scannerRef s)
    (timers s) (nextHandle s).

Definition setScannerRef (c : option (list ScannedItem)) (s : Home) : Home :=
  mkHome (scannedItems s) (isScanning s) (message s) c
    (timers s) (nextHandle s).

Definition clearMessageLater (delay now : Z) (s : Home) : Home :=
  mkHome (scannedItems s) (isScanning s) (message s) (scannerRef s)
    (timers s ++ [mkTimer (nextHandle s) (now + delay) ClearMessage])
    (Pos.succ (nextHandle s)).

(** [handleScanSuccess], part_000 70-88, with its free variable
    [scannedItems] made a parameter: [closedOver] is the list of the
    render the function belongs to.  The update itself is functional
    ([prev => [...prev, newItem]]) and acts on the current list. *)
Definition handleScanSuccess (closedOver : list ScannedItem)
  (serialNumber : jsstring) (now : Z) (s : Home) : Home :=
  if alreadyScanned closedOver serialNumber then
    setMessage (Some (mkMessage error (duplicateText serialNumber))) s
  else
    s |> setScannedItems (fun prev => prev ++ [newItem serialNumber now])
      |> setMessage (Some (mkMessage success (scannedText serialNumber)))
      |> clearMessageLater 2000 now.

(** [startScanning], part_000 29-55, clicked in state [s]; [started]
    tells whether the camera could be started. *)
Definition startScanning (started : bool) (s : Home) : Home :=
  let s1 := setMessage None s in
  if started then
    s1 |> setScannerRef (Some (scannedItems s)) |> setIsScanning true
  else
    s1 |> setMessage
            (Some (mkMessage error
               (js "Failed to start camera. Please check permissions.")))
       |> setIsScanning false.

(** [stopScanning], part_000 57-68. *)
Definition stopScanning (s : Home) : Home :=
  s |> setScannerRef None |> setIsScanning false.

(** [removeItem], part_000 90-92. *)
Definition removeItem (i : jsstring) (s : Home) : Home :=
  setScannedItems
    (fun prev => filter (fun item => negb (jsstring_eqb (id item) i)) prev) s.

Inductive Event :=
| StartClick (started : bool)
| StopClick
| Decoded (decodedText : jsstring) (now : Z)
| RemoveClick (i : jsstring).

(** A decode is delivered to the callback of the running scanner. *)
Definition dispatch (ev : Event) (s : Home) : option Home :=
  match ev with
  | StartClick started => Some (startScanning started s)
  | StopClick => Some (stopScanning s)
  | Decoded decodedText now =>
      match scannerRef s with
      | Some closedOver => Some (handleScanSuccess closedOver decodedText now s)
      | None => None
      end
  | RemoveClick i => Some (removeItem i s)
  end.

Fixpoint run (evs : list Event) (s : Home) : option Home :=
  match evs with
  | [] => Some s
  | ev :: rest =>
      match dispatch ev s with
      | Some s' => run rest s'
      | None => None
      end
  end.

End Camera.

(* ================================================================= *)
(** ** The input-field page with Enter: [Home] of page.tsx 12-217 *)

Module EnterPage.

(** This revision has no refs: every handler belongs to the latest
    render and reads the state of that render. *)
Record Home := mkHome {
  scannedItems : list ScannedItem;        (* useState([])    *)
  isScanning : bool;                      (* useState(true)  *)
  message : option Message;               (* useState(null)  *)
  currentScan : jsstring;                 (* useState('')    *)
  timers : list Timer;
  nextHandle : handle
}.

Definition initial : Home := mkHome [] true None [] [] 1%positive.

Definition setScannedItems (f : list ScannedItem -> list ScannedItem)
  (s : Home) : Home :=
  mkHome (f (scannedItems s)) (isScanning s) (message s) (currentScan s)
    (timers s) (nextHandle s).

Definition setIsScanning (f : bool -> bool) (s : Home) : Home :=
  mkHome (scannedItems s) (f (isScanning s)) (message s) (currentScan s)
    (timers s) (nextHandle s).

Definition setMessage (m : option Message) (s : Home) : Home :=
  mkHome (scannedItems s) (isScanning s) m (currentScan s)
    (timers s) (nextHandle s).

Definition setCurrentScan (v : jsstring) (s : Home) : Home :=
  mkHome (scannedItems s) (isScanning s) (message s) v
    (timers s) (nextHandle s).

Definition setTimers (ts : list Timer) (s : Home) : Home :=
  mkHome (scannedItems s) (isScanning s) (message s) (currentScan s)
    ts (nextHandle s).

(** [setTimeout(() => setMessage(null), delay)] *)
Definition clearMessageLater (delay now : Z) (s : Home) : Home :=
  mkHome (scannedItems s) (isScanning s) (message s) (currentScan s)
    (timers s ++ [mkTimer (nextHandle s) (now + delay) ClearMessage])
    (Pos.succ (nextHandle s)).

(** [handleScanSuccess], page.tsx 58-76.  A rejected duplicate returns
    before the [setTimeout]. *)
Definition handleScanSuccess (serialNumber : jsstring) (now : Z) (s : Home)
  : Home :=
  if alreadyScanned (scannedItems s) serialNumber then
    setMessage (Some (mkMessage error (duplicateText serialNumber))) s
  else
    s |> setScannedItems (fun prev => prev ++ [newItem serialNumber now])
      |> setMessage (Some (mkMessage success (scannedText serialNumber)))
      |> clearMessageLater 2000 now.

(** [handleInputKeyDown], page.tsx 26-47. *)
Definition handleInputKeyDown (e : KeyboardEvent) (now : Z) (s : Home)
  : Home :=
  if negb (isScanning s) then s
  else if jsstring_eqb (key e) Enter then
    let scannedValue := trim (currentScan s) in
    if truthy scannedValue
    then s |> handleScanSuccess scannedValue now |> setCurrentScan []
    else s
  else s.

(** [toggleScanning], page.tsx 49-56. *)
Definition toggleScanning (s : Home) : Home := setIsScanning negb s.

(** [removeItem], page.tsx 78-80. *)
Definition removeItem (i : jsstring) (s : Home) : Home :=
  setScannedItems
    (fun prev => filter (fun item => negb (jsstring_eqb (id item) i)) prev) s.

(** [clearAll], page.tsx 82-88. *)
Definition clearAll (confirmed : bool) (now : Z) (s : Home) : Home :=
  if confirmed then
    s |> setScannedItems (fun _ => [])
      |> setMessage (Some (mkMessage success (js "All items cleared")))
      |> clearMessageLater 2000 now
  else s.

(** The state changes of [downloadExcel], page.tsx 90-122. *)
Definition downloadExcel (fileName : jsstring) (now : Z) (s : Home) : Home :=
  if Nat.eqb (List.length (scannedItems s)) 0 then
    setMessage (Some (mkMessage error (js "No serial numbers to export!"))) s
  else
    s |> setMessage
           (Some (mkMessage success (js "Excel file downloaded: " ++ fileName)))
      |> clearMessageLater 3000 now.

(** The browser runs timer [h] at [now].  Every timer of this page
    clears the message. *)
Definition expire (h : handle) (now : Z) (s : Home) : option Home :=
  match findTimer h (timers s) with
  | Some t =>
      if due t <=? now
      then Some (s |> setTimers (cancel h (timers s)) |> setMessage None)
      else None
  | None => None
  end.

Inductive Event :=
| KeyDown (e : KeyboardEvent) (now : Z)
| InputChange (value : jsstring)      (* onChange: setCurrentScan(value) *)
| TimerExpired (h : handle) (now : Z)
| ToggleClick
| RemoveClick (i : jsstring)
| ClearAllClick (confirmed : bool) (now : Z)
| DownloadClick (fileName : jsstring) (now : Z).

Definition dispatch (ev : Event) (s : Home) : option Home :=
  match ev with
  | KeyDown e now => Some (handleInputKeyDown e now s)
  | InputChange value => Some (setCurrentScan value s)
  | TimerExpired h now => expire h now s
  | ToggleClick => Some (toggleScanning s)
  | RemoveClick i => Some (removeItem i s)
  | ClearAllClick confirmed now => Some (clearAll confirmed now s)
  | DownloadClick fileName now => Some (downloadExcel fileName now s)
  end.

Fixpoint run (evs : list Event) (s : Home) : option Home :=
  match evs with
  | [] => Some s
  | ev :: rest =>
      match dispatch ev s with
      | Some s' => run rest s'
      | None => None
      end
  end.

Inductive reachable : Home -> Prop :=
| reachable_initial : reachable initial
| reachable_dispatch s ev s' :
    reachable s -> dispatch ev s = Some s' -> reachable s'.

End EnterPage.

(* ================================================================= *)
(** ** The input-field page with a 300 ms auto-save: [Home] of
       page.tsx 555-776 *)

Module DebouncePage.

(** A cell of the exported sheet. *)
Inductive Cell :=
| Num (n : Z)
| Str (s : jsstring).

(** What a pending timer of this page runs.  The auto-save closure of
    [onChange] keeps the [value] of the change event it was made in. *)
Inductive Callback :=
| SaveValue (value : jsstring)
| ClearMessage.

Record Timer := mkTimer {
  timerHandle : handle;
  due : Z;
  callback : Callback
}.

Definition isSaveValue (t : Timer) : bool :=
  match callback t with SaveValue _ => true | ClearMessage => false end.

Definition cancel (h : handle) (ts : list Timer) : list Timer :=
  filter (fun t => negb (Pos.eqb (timerHandle t) h)) ts.

Definition findTimer (h : handle) (ts : list Timer) : option Timer :=
  find (fun t => Pos.eqb (timerHandle t) h) ts.

Definition pendingSaves (ts : list Timer) : list Timer :=
  filter isSaveValue ts.

Record Home := mkHome {
  scannedItems : list ScannedItem;        (* useState([])    *)
  isScanning : bool;                      (* useState(true)  *)
  message : option Message;               (* useState(null)  *)
  currentScan : jsstring;                 (* useState('')    *)
  autoSaveTimeoutRef : option handle;     (* useRef(null)    *)
  timers : list Timer;
  nextHandle : handle
}.

Definition initial : Home := mkHome [] true None [] None [] 1%positive.

Definition setScannedItems (f : list ScannedItem -> list ScannedItem)
  (s : Home) : Home :=
  mkHome (f (scannedItems s)) (isScanning s) (message s) (currentScan s)
    (autoSaveTimeoutRef s) (timers s) (nextHandle s).

Definition setIsScanning (f : bool -> bool) (s : Home) : Home :=
  mkHome (scannedItems s) (f (isScanning s)) (message s) (currentScan s)
    (autoSaveTimeoutRef s) (timers s) (nextHandle s).

Definition setMessage (m : option Message) (s : Home) : Home :=
  mkHome (scannedItems s) (isScanning s) m (currentScan s)
    (autoSaveTimeoutRef s) (timers s) (nextHandle s).

Definition setCurrentScan (v : jsstring) (s : Home) : Home :=
  mkHome (scannedItems s) (isScanning s) (message s) v
    (autoSaveTimeoutRef s) (timers s) (nextHandle s).

Definition setAutoSaveTimeoutRef (h : option handle) (s : Home) : Home :=
  mkHome (scannedItems s) (isScanning s) (message s) (currentScan s)
    h (timers s) (nextHandle s).

Definition setTimers (ts : list Timer) (s : Home) : Home :=
  mkHome (scannedItems s) (isScanning s) (message s) (currentScan s)
    (autoSaveTimeoutRef s) ts (nextHandle s).

Definition setTimeout (cb : Callback) (delay now : Z) (s : Home)
  : handle * Home :=
  (nextHandle s,
   mkHome (scannedItems s) (isScanning s) (message s) (currentScan s)
     (autoSaveTimeoutRef s)
     (timers s ++ [mkTimer (nextHandle s) (now + delay) cb])
     (Pos.succ (nextHandle s))).

Definition clearTimeout (h : handle) (s : Home) : Home :=
  setTimers (cancel h (timers s)) s.

Definition clearMessageLater (delay now : Z) (s : Home) : Home :=
  snd (setTimeout ClearMessage delay now s).

(** [saveScannedBarcode], page.tsx 564-593.  The duplicate test is made
    inside the updater of [setScannedItems], on the list the update is
    applied to. *)
Definition saveScannedBarcode (scannedValue : jsstring) (now : Z) (s : Home)
  : Home :=
  let cleanValue := trim scannedValue in
  if negb (truthy cleanValue) then s
  else
    let s1 :=
      if alreadyScanned (scannedItems s) cleanValue then
        s |> setMessage (Some (mkMessage error (duplicateText cleanValue)))
          |> clearMessageLater 2000 now
      else
        s |> setMessage (Some (mkMessage success (scannedText cleanValue)))
          |> clearMessageLater 2000 now
          |> setScannedItems (fun prev => prev ++ [newItem cleanValue now]) in
    setCurrentScan [] s1.

(** The [onChange] handler of the input, page.tsx 705-718. *)
Definition onChange (value : jsstring) (now : Z) (s : Home) : Home :=
  let s1 := setCurrentScan value s in
  let s2 :=
    match autoSaveTimeoutRef s1 with
    | Some h => clearTimeout h s1
    | None => s1
    end in
  let (h, s3) := setTimeout (SaveValue value) 300 now s2 in
  setAutoSaveTimeoutRef (Some h) s3.

(** The closure armed at page.tsx 713-717. *)
Definition autoSaveCallback (value : jsstring) (now : Z) (s : Home) : Home :=
  if Nat.ltb 0 (List.length (trim value))
  then saveScannedBarcode value now s
  else s.

(** [toggleScanning], page.tsx 608-615. *)
Definition toggleScanning (s : Home) : Home :=
  s |> setIsScanning negb |> setCurrentScan [].

(** [removeItem], page.tsx 617-619. *)
Definition removeItem (i : jsstring) (s : Home) : Home :=
  setScannedItems
    (fun prev => filter (fun item => negb (jsstring_eqb (id item) i)) prev) s.

(** [clearAll], page.tsx 621-627. *)
Definition clearAll (confirmed : bool) (now : Z) (s : Home) : Home :=
  if confirmed then
    s |> setScannedItems (fun _ => [])
      |> setMessage (Some (mkMessage success (js "All items cleared")))
      |> clearMessageLater 2000 now
  else s.

(** [scannedItems.map((item, index) => f(item, index))], counting from
    [index]. *)
Fixpoint mapIndexed {A B : Type} (f : A -> Z -> B) (index : Z) (l : list A)
  : list B :=
  match l with
  | [] => []
  | x :: rest => f x index :: mapIndexed f (index + 1) rest
  end.

(** The array [data] of [downloadExcel], page.tsx 635-641. *)
Definition exportData (items : list ScannedItem) : list (list Cell) :=
  [Str (js "Count"); Str (js "Serial Number")]
  :: mapIndexed (fun item index => [Num (index + 1); Str (serialNumber item)])
       0 items.

(** [downloadExcel], page.tsx 629-655: the sheet handed to the XLSX
    library, if any, and the state afterwards; [fileName] is the dated
    name computed for the workbook. *)
Definition downloadExcel (fileName : jsstring) (now : Z) (s : Home)
  : option (list (list Cell)) * Home :=
  if Nat.eqb (List.length (scannedItems s)) 0 then
    (None,
     setMessage (Some (mkMessage error (js "No serial numbers to export!"))) s)
  else
    (Some (exportData (scannedItems s)),
     s |> setMessage
            (Some (mkMessage success
                     (js "Excel file downloaded: " ++ fileName)))
       |> clearMessageLater 3000 now).

Definition runCallback (cb : Callback) (now : Z) (s : Home) : Home :=
  match cb with
  | SaveValue value => autoSaveCallback value now s
  | ClearMessage => setMessage None s
  end.

Definition expire (h : handle) (now : Z) (s : Home) : option Home :=
  match findTimer h (timers s) with
  | Some t =>
      if due t <=? now
      then Some (runCallback (callback t) now (clearTimeout h s))
      else None
  | None => None
  end.

Inductive Event :=
| InputChange (value : jsstring) (now : Z)
| TimerExpired (h : handle) (now : Z)
| ToggleClick
| RemoveClick (i : jsstring)
| ClearAllClick (confirmed : bool) (now : Z)
| DownloadClick (fileName : jsstring) (now : Z).

Definition dispatch (ev : Event) (s : Home) : option Home :=
  match ev with
  | InputChange value now => Some (onChange value now s)
  | TimerExpired h now => expire h now s
  | ToggleClick => Some (toggleScanning s)
  | RemoveClick i => Some (removeItem i s)
  | ClearAllClick confirmed now => Some (clearAll confirmed now s)
  | DownloadClick fileName now => Some (snd (downloadExcel fileName now s))
  end.

Fixpoint run (evs : list Event) (s : Home) : option Home :=
  match evs with
  | [] => Some s
  | ev :: rest =>
      match dispatch ev s with
      | Some s' => run rest s'
      | None => None
      end
  end.

Inductive reachable : Home -> Prop :=
| reachable_initial : reachable initial
| reachable_dispatch s ev s' :
    reachable s -> dispatch ev s = Some s' -> reachable s'.

(** The change events of typing the texts [vs] one after the other. *)
Definition changes (vs : list (jsstring * Z)) : list Event :=
  map (fun v => InputChange (fst v) (snd v)) vs.

End DebouncePage.


Import Page.

(* ================================================================= *)
(** ** Invariants of the keyboard page *)

(** The timer table against the refs: handles are fresh and distinct,
    and a pending auto-save timer is the one [autoSaveTimeoutRef] names,
    due 200 ms after the last accepted character. *)
Record timersOk (s : Home) : Prop := mkTimersOk {
  handles_fresh :
    Forall (fun t => (timerHandle t < nextHandle s)%positive) (timers s);
  handles_distinct : NoDup (map timerHandle (timers s));
  autosave_linked :
    Forall (fun t => isAutoSave t = true ->
                     autoSaveTimeoutRef s = Some (timerHandle t)
                     /\ due t = lastKeyTimeRef s + 200)
           (timers s)
}.

(** The ledger: serial values are trimmed, non-empty and pairwise
    distinct. *)
Record ledgerOk (items : list ScannedItem) : Prop := mkLedgerOk {
  serials_distinct : NoDup (map serialNumber items);
  serials_trimmed :
    Forall (fun item => trim (serialNumber item) = serialNumber item
                        /\ serialNumber item <> []) items
}.

(** The state between two events: the effects have run. *)
Definition committed (s : Home) : Prop :=
  scannedItemsRef s = scannedItems s /\ listenerIsScanning s = isScanning s.

(** While paused the buffer is empty and no auto-save is pending. *)
Definition pausedOk (s : Home) : Prop :=
  isScanning s = false ->
  scanBufferRef s = [] /\ pendingAutoSave (timers s) = [].

Record wf (s : Home) : Prop := mkWf {
  wf_committed : committed s;
  wf_timers : timersOk s;
  wf_ledger : ledgerOk (scannedItems s);
  wf_paused : pausedOk s
}.

(** [if (ref) clearTimeout(ref)] on the timer table. *)
Definition cancelRef (r : option handle) (ts : list Timer) : list Timer :=
  match r with
  | Some h => cancel h ts
  | None => ts
  end.

(** [subseq l l']: [l] is [l'] with some elements left out, the others
    in their order. *)
Inductive subseq {A : Type} : list A -> list A -> Prop :=
| subseq_nil : subseq [] []
| subseq_drop x l l' : subseq l l' -> subseq l (x :: l')
| subseq_keep x l l' : subseq l l' -> subseq (x :: l) (x :: l').

(** Every key of [ks] arrives at most 500 ms after the one before it,
    the first at most 500 ms after [last]. *)
Fixpoint within (last : Z) (ks : list (jsstring * Z)) : Prop :=
  match ks with
  | [] => True
  | k :: rest => snd k - last <= 500 /\ within (snd k) rest
  end.

(** Identifiers compared as the numbers they denote. *)
Definition idBefore (a b : jsstring) : Prop :=
  match toNumber a, toNumber b with
  | Some m, Some n => m < n
  | _, _ => False
  end.

(** The instant at which an event reads the clock, if it does. *)
Definition eventTime (ev : Event) : option Z :=
  match ev with
  | KeyDown _ now | TimerExpired _ now
  | ClearAllClick _ now | DownloadClick _ now => Some now
  | ToggleClick | RemoveClick _ | InputChange _ => None
  end.

(** The clock readings at which the events of a run of the keyboard
    page created a record.  An event has created one when the list is
    longer after it; its reading is the one the identifier is made of. *)
Fixpoint creationTimes (evs : list Event) (s : Home) : list Z :=
  match evs with
  | [] => []
  | ev :: rest =>
      match dispatch ev s with
      | Some s' =>
          match eventTime ev with
          | Some now =>
              if Nat.ltb (List.length (scannedItems s))
                         (List.length (scannedItems s'))
              then now :: creationTimes rest s'
              else creationTimes rest s'
          | None => creationTimes rest s'
          end
      | None => []
      end
  end.

(** The same for a run of the camera page, where only a decode reads
    the clock. *)
Fixpoint cameraCreationTimes (evs : list Camera.Event) (s : Camera.Home)
  : list Z :=
  match evs with
  | [] => []
  | ev :: rest =>
      match Camera.dispatch ev s with
      | Some s' =>
          match ev with
          | Camera.Decoded _ now =>
              if Nat.ltb (List.length (Camera.scannedItems s))
                         (List.length (Camera.scannedItems s'))
              then now :: cameraCreationTimes rest s'
              else cameraCreationTimes rest s'
          | _ => cameraCreationTimes rest s'
          end
      | None => []
      end
  end.

(** A key event the keyboard page has no branch for: neither Enter nor
    a character. *)
Definition ignoredKey (ev : Event) : bool :=
  match ev with
  | KeyDown e _ => negb (jsstring_eqb (key e) Enter)
                   && negb (isCharacterInput e)
  | _ => false
  end.

(** What [autoSaveTimeoutRef] may name: a handle already given out, and
    never the handle of a message timer. *)
Definition refOk (s : Home) : Prop :=
  forall h, autoSaveTimeoutRef s = Some h ->
    (h < nextHandle s)%positive /\
    Forall (fun t => timerHandle t = h -> isAutoSave t = true) (timers s).

(** The decodes [ds], each a text with the instant it is reported at. *)
Definition decodes (ds : list (jsstring * Z)) : list Camera.Event :=
  map (fun d => Camera.Decoded (fst d) (snd d)) ds.

(** Invariant of the 300 ms page: handles are fresh and distinct, a
    pending auto-save is the one the ref names, and the ledger is in
    order. *)
Record debounceOk (s : DebouncePage.Home) : Prop := mkDebounceOk {
  debounce_fresh :
    Forall (fun t => (DebouncePage.timerHandle t
                      < DebouncePage.nextHandle s)%positive)
           (DebouncePage.timers s);
  debounce_distinct :
    NoDup (map DebouncePage.timerHandle (DebouncePage.timers s));
  debounce_linked :
    Forall (fun t => DebouncePage.isSaveValue t = true ->
                     DebouncePage.autoSaveTimeoutRef s
                     = Some (DebouncePage.timerHandle t))
           (DebouncePage.timers s);
  debounce_ledger : ledgerOk (DebouncePage.scannedItems s)
}.

(* ================================================================= *)
(** ** Strings *)

Lemma jsstring_eqb_eq (a b : jsstring) : jsstring_eqb a b = true <-> a = b.
Proof.
  revert b; induction a as [|x a IH]; intros [|y b]; simpl;
    try (split; [discriminate | discriminate]); try tauto.
  rewrite andb_true_iff, N.eqb_eq, IH.
  split; [intros [-> ->]; reflexivity | intros [= -> ->]; auto].
Qed.

Lemma jsstring_eqb_refl (a : jsstring) : jsstring_eqb a a = true.
Proof. apply jsstring_eqb_eq; reflexivity. Qed.

Lemma jsstring_eqb_neq (a b : jsstring) : jsstring_eqb a b = false <-> a <> b.
Proof.
  rewrite <- jsstring_eqb_eq.
  destruct (jsstring_eqb a b); split; congruence.
Qed.

Lemma truthy_true (s : jsstring) : truthy s = true <-> s <> [].
Proof. destruct s; simpl; split; congruence. Qed.

Lemma trimEnd_idem (s : jsstring) : trimEnd (trimEnd s) = trimEnd s.
Proof.
  induction s as [|c r IH]; simpl; [reflexivity|].
  destruct (trimEnd r) as [|d r'] eqn:E.
  - destruct (isWhiteSpace c) eqn:W; simpl; [reflexivity | now rewrite W].
  - change (trimEnd (c :: d :: r')) with
      (match trimEnd (d :: r') with
       | [] => if isWhiteSpace c then [] else [c]
       | x => c :: x
       end).
    now rewrite IH.
Qed.

Lemma trimEnd_head (c : N) (r : jsstring) :
  isWhiteSpace c = false -> exists r', trimEnd (c :: r) = c :: r'.
Proof.
  intros W; simpl. destruct (trimEnd r); rewrite ?W; eauto.
Qed.

Lemma trimStart_head (c : N) (r : jsstring) :
  isWhiteSpace c = false -> trimStart (c :: r) = c :: r.
Proof. intros W; simpl; now rewrite W. Qed.

Lemma trimStart_cases (s : jsstring) :
  trimStart s = [] \/
  exists c r, trimStart s = c :: r /\ isWhiteSpace c = false.
Proof.
  induction s as [|c r IH]; simpl; [now left|].
  destruct (isWhiteSpace c) eqn:W; [exact IH | right; eauto].
Qed.

(** Trimming a trimmed string changes nothing. *)
Lemma trim_idem (s : jsstring) : trim (trim s) = trim s.
Proof.
  unfold trim.
  destruct (trimStart_cases s) as [-> | (c & r & -> & W)]; [reflexivity|].
  destruct (trimEnd_head c r W) as [r' E].
  rewrite E, (trimStart_head c r' W), <- E.
  apply trimEnd_idem.
Qed.

(** Leading white space never reaches the candidate. *)
Lemma trim_leading (w s : jsstring) :
  Forall (fun c => isWhiteSpace c = true) w -> trim (w ++ s) = trim s.
Proof.
  unfold trim; induction 1 as [|c w W _ IH]; simpl; [reflexivity|].
  now rewrite W, IH.
Qed.

Lemma trim_blank (w : jsstring) :
  trim w = [] <-> Forall (fun c => isWhiteSpace c = true) w.
Proof.
  unfold trim; induction w as [|c w IH].
  - simpl; split; auto.
  - cbn [trimStart]. destruct (isWhiteSpace c) eqn:W.
    + rewrite IH; split; [auto | now inversion 1].
    + destruct (trimEnd_head c w W) as [r' E].
      split; [intros H; rewrite E in H; discriminate | inversion 1; congruence].
Qed.

(** The numeral of an instant denotes that instant. *)
Lemma toNumber_toString (z : Z) : toNumber (toString z) = Some z.
Proof.
  unfold toNumber, toString, js.
  rewrite map_map.
  erewrite map_ext by (intros; apply ascii_N_embedding).
  rewrite map_id, string_of_list_ascii_of_string, NilEmpty.isi.
  simpl. now rewrite DecimalZ.of_to.
Qed.

Lemma toString_inj (a b : Z) : toString a = toString b -> a = b.
Proof.
  intros E.
  assert (H : toNumber (toString a) = toNumber (toString b)) by now rewrite E.
  rewrite !toNumber_toString in H. congruence.
Qed.

Lemma alreadyScanned_true (items : list ScannedItem) (v : jsstring) :
  alreadyScanned items v = true <-> In v (map serialNumber items).
Proof.
  unfold alreadyScanned. rewrite existsb_exists, in_map_iff.
  split; intros (x & H1 & H2).
  - exists x. split; [now apply jsstring_eqb_eq | assumption].
  - exists x. split; [assumption | now apply jsstring_eqb_eq].
Qed.

Lemma alreadyScanned_false (items : list ScannedItem) (v : jsstring) :
  alreadyScanned items v = false <-> ~ In v (map serialNumber items).
Proof.
  rewrite <- alreadyScanned_true.
  destruct (alreadyScanned items v); split; congruence.
Qed.

(* ================================================================= *)
(** ** Subsequences *)

Lemma subseq_filter {A : Type} (p : A -> bool) (l : list A) :
  subseq (filter p l) l.
Proof.
  induction l as [|x l IH]; simpl; [constructor|].
  destruct (p x); now constructor.
Qed.

Lemma subseq_In {A : Type} (x : A) (l l' : list A) :
  subseq l l' -> In x l -> In x l'.
Proof.
  induction 1 as [|y l l' _ IH|y l l' _ IH]; simpl; tauto.
Qed.

Lemma subseq_map {A B : Type} (f : A -> B) (l l' : list A) :
  subseq l l' -> subseq (map f l) (map f l').
Proof.
  induction 1; simpl; now constructor.
Qed.

Lemma subseq_NoDup {A : Type} (l l' : list A) :
  subseq l l' -> NoDup l' -> NoDup l.
Proof.
  induction 1 as [|y l l' S IH|y l l' S IH]; intros D;
    inversion D as [|? ? Hn D']; subst; auto.
  constructor; [|auto]. intros Hy. apply Hn. eapply subseq_In; eassumption.
Qed.

Lemma subseq_sorted {A : Type} (R : A -> A -> Prop) (l l' : list A) :
  subseq l l' -> StronglySorted R l' -> StronglySorted R l.
Proof.
  induction 1 as [|y l l' S IH|y l l' S IH]; intros T;
    [assumption | |]; apply StronglySorted_inv in T; destruct T as [T H];
    [auto|].
  constructor; [auto|].
  rewrite Forall_forall in *. intros z Hz. apply H.
  eapply subseq_In; eassumption.
Qed.

(** What is kept of a list without repetition has none, also seen
    through a projection. *)
Lemma kept_distinct {A B : Type} (f : A -> B) (l l' : list A) :
  subseq l l' -> NoDup (map f l') -> NoDup (map f l).
Proof.
  intros S. apply subseq_NoDup. now apply subseq_map.
Qed.

Lemma kept_sorted {A B : Type} (R : B -> B -> Prop) (f : A -> B)
  (l l' : list A) :
  subseq l l' -> StronglySorted R (map f l') -> StronglySorted R (map f l).
Proof.
  intros S. apply subseq_sorted. now apply subseq_map.
Qed.

(* ================================================================= *)
(** ** The timer table *)

Lemma cancel_In (t : Timer) (h : handle) (ts : list Timer) :
  In t (cancel h ts) <-> In t ts /\ timerHandle t <> h.
Proof.
  unfold cancel. rewrite filter_In, negb_true_iff, Pos.eqb_neq. tauto.
Qed.

Lemma Forall_cancel (P : Timer -> Prop) (h : handle) (ts : list Timer) :
  Forall P ts -> Forall P (cancel h ts).
Proof.
  rewrite !Forall_forall. intros H t Ht.
  apply cancel_In in Ht. now apply H.
Qed.

Lemma NoDup_cancel (h : handle) (ts : list Timer) :
  NoDup (map timerHandle ts) -> NoDup (map timerHandle (cancel h ts)).
Proof. apply kept_distinct, subseq_filter. Qed.

Lemma pendingAutoSave_nil (ts : list Timer) :
  pendingAutoSave ts = [] <-> Forall (fun t => isAutoSave t = false) ts.
Proof.
  unfold pendingAutoSave. induction ts as [|t ts IH]; simpl.
  - split; auto.
  - destruct (isAutoSave t) eqn:E.
    + split; [discriminate | inversion 1; congruence].
    + rewrite IH. split; [auto | now inversion 1].
Qed.

Lemma pendingAutoSave_cancel (h : handle) (ts : list Timer) :
  pendingAutoSave ts = [] -> pendingAutoSave (cancel h ts) = [].
Proof. rewrite !pendingAutoSave_nil. apply Forall_cancel. Qed.

Lemma pendingAutoSave_app (ts us : list Timer) :
  pendingAutoSave (ts ++ us) = pendingAutoSave ts ++ pendingAutoSave us.
Proof. apply filter_app. Qed.

(** Cancelling the timer the ref names leaves no auto-save pending. *)
Lemma cancel_linked (h : handle) (ts : list Timer) :
  Forall (fun t => isAutoSave t = true -> Some h = Some (timerHandle t)) ts ->
  pendingAutoSave (cancel h ts) = [].
Proof.
  intros H. apply pendingAutoSave_nil.
  rewrite Forall_forall in *. intros t Ht. apply cancel_In in Ht.
  destruct Ht as [Hin Hne]. specialize (H t Hin).
  destruct (isAutoSave t); [|reflexivity].
  exfalso. apply Hne. specialize (H eq_refl). congruence.
Qed.

Lemma unlinked_none (ts : list Timer) :
  Forall (fun t => isAutoSave t = true ->
                   @None handle = Some (timerHandle t)) ts ->
  pendingAutoSave ts = [].
Proof.
  intros H. apply pendingAutoSave_nil.
  rewrite Forall_forall in *. intros t Ht. specialize (H t Ht).
  destruct (isAutoSave t); [|reflexivity]. now specialize (H eq_refl).
Qed.

Lemma findTimer_Some (h : handle) (ts : list Timer) (t : Timer) :
  findTimer h ts = Some t -> In t ts /\ timerHandle t = h.
Proof.
  unfold findTimer. intros H. apply find_some in H.
  now rewrite Pos.eqb_eq in H.
Qed.

(* ================================================================= *)
(** ** What each handler does to the state *)

Lemma saveScannedBarcode_blank (v : jsstring) (now : Z) (s : Home) :
  trim v = [] -> saveScannedBarcode v now s = s.
Proof.
  intros E. unfold saveScannedBarcode. now rewrite E.
Qed.

Lemma saveScannedBarcode_duplicate (v : jsstring) (now : Z) (s : Home) :
  trim v <> [] ->
  alreadyScanned (scannedItemsRef s) (trim v) = true ->
  saveScannedBarcode v now s =
  mkHome (scannedItems s) (isScanning s)
    (Some (mkMessage error (duplicateText (trim v)))) [] []
    (lastKeyTimeRef s) (scannedItemsRef s) None (listenerIsScanning s)
    (cancelRef (autoSaveTimeoutRef s)
       (timers s ++ [mkTimer (nextHandle s) (now + 2000) ClearMessage]))
    (Pos.succ (nextHandle s)).
Proof.
  intros E D. unfold saveScannedBarcode.
  apply truthy_true in E. rewrite E, D.
  destruct s as [? ? ? ? ? ? ? [h|] ? ? ?]; reflexivity.
Qed.

Lemma saveScannedBarcode_fresh (v : jsstring) (now : Z) (s : Home) :
  trim v <> [] ->
  alreadyScanned (scannedItemsRef s) (trim v) = false ->
  saveScannedBarcode v now s =
  mkHome (scannedItems s ++ [newItem (trim v) now]) (isScanning s)
    (Some (mkMessage success (scannedText (trim v)))) [] []
    (lastKeyTimeRef s) (scannedItemsRef s) None (listenerIsScanning s)
    (cancelRef (autoSaveTimeoutRef s)
       (timers s ++ [mkTimer (nextHandle s) (now + 2000) ClearMessage]))
    (Pos.succ (nextHandle s)).
Proof.
  intros E D. unfold saveScannedBarcode.
  apply truthy_true in E. rewrite E, D.
  destruct s as [? ? ? ? ? ? ? [h|] ? ? ?]; reflexivity.
Qed.

Lemma character_not_Enter (e : KeyboardEvent) :
  isCharacterInput e = true -> jsstring_eqb (key e) Enter = false.
Proof.
  unfold isCharacterInput. rewrite !andb_true_iff, Nat.eqb_eq.
  intros [[[L _] _] _]. apply jsstring_eqb_neq. intros E.
  rewrite E in L. discriminate.
Qed.

Lemma handleGlobalKeyDown_paused (e : KeyboardEvent) (now : Z) (s : Home) :
  listenerIsScanning s = false -> handleGlobalKeyDown e now s = s.
Proof. intros E. unfold handleGlobalKeyDown. now rewrite E. Qed.

Lemma handleGlobalKeyDown_Enter (e : KeyboardEvent) (now : Z) (s : Home) :
  listenerIsScanning s = true -> key e = Enter ->
  handleGlobalKeyDown e now s =
  if truthy (scanBufferRef s)
  then saveScannedBarcode (scanBufferRef s) now s else s.
Proof.
  intros L K. unfold handleGlobalKeyDown.
  now rewrite L, K, jsstring_eqb_refl.
Qed.

Lemma handleGlobalKeyDown_character (e : KeyboardEvent) (now : Z) (s : Home) :
  listenerIsScanning s = true -> isCharacterInput e = true ->
  handleGlobalKeyDown e now s =
  let buffer :=
    (if now - lastKeyTimeRef s >? 500 then [] else scanBufferRef s) ++ key e in
  mkHome (scannedItems s) (isScanning s) (message s) buffer buffer now
    (scannedItemsRef s) (Some (nextHandle s)) true
    (cancelRef (autoSaveTimeoutRef s) (timers s)
       ++ [mkTimer (nextHandle s) (now + 200) AutoSave])
    (Pos.succ (nextHandle s)).
Proof.
  intros L C. unfold handleGlobalKeyDown.
  rewrite L, (character_not_Enter e C), C.
  destruct s as [? ? ? ? ? ? ? [h|] ? ? ?]; simpl in *; subst;
    destruct (now - _ >? 500); reflexivity.
Qed.

Lemma handleGlobalKeyDown_other (e : KeyboardEvent) (now : Z) (s : Home) :
  jsstring_eqb (key e) Enter = false -> isCharacterInput e = false ->
  handleGlobalKeyDown e now s = s.
Proof.
  intros K C. unfold handleGlobalKeyDown.
  rewrite K, C. now destruct (listenerIsScanning s).
Qed.

Lemma autoSaveCallback_eq (now : Z) (s : Home) :
  autoSaveCallback now s =
  if truthy (scanBufferRef s)
  then saveScannedBarcode (scanBufferRef s) now s else s.
Proof.
  unfold autoSaveCallback. now destruct (scanBufferRef s).
Qed.

Lemma commit_committed (s : Home) : committed (commit s).
Proof.
  unfold committed, commit.
  destruct s as [? [|] ? ? ? ? ? [h|] [|] ? ?]; simpl; auto.
Qed.

(** Between two events the re-render only synchronises the ref. *)
Lemma commit_same (s : Home) :
  listenerIsScanning s = isScanning s ->
  commit s = setScannedItemsRef (scannedItems s) s.
Proof.
  intros E. unfold commit. simpl. now rewrite E, eqb_reflx.
Qed.

Lemma commit_id (s : Home) : committed s -> commit s = s.
Proof.
  intros [R L]. rewrite commit_same by assumption.
  destruct s; simpl in *. now subst.
Qed.

(* ================================================================= *)
(** ** Preservation of the timer invariant *)

Lemma fresh_snoc (next : handle) (d : Z) (cb : TimerCallback)
  (ts : list Timer) :
  Forall (fun t => (timerHandle t < next)%positive) ts ->
  Forall (fun t => (timerHandle t < Pos.succ next)%positive)
         (ts ++ [mkTimer next d cb]).
Proof.
  intros H. apply Forall_app. split.
  - eapply Forall_impl; [|exact H]. simpl; intros; lia.
  - constructor; [simpl; lia | constructor].
Qed.

Lemma distinct_snoc (next : handle) (d : Z) (cb : TimerCallback)
  (ts : list Timer) :
  Forall (fun t => (timerHandle t < next)%positive) ts ->
  NoDup (map timerHandle ts) ->
  NoDup (map timerHandle (ts ++ [mkTimer next d cb])).
Proof.
  intros F D. rewrite map_app. simpl.
  apply NoDup_app; [assumption | repeat constructor; simpl; tauto |].
  intros h Hin [<- | []]. apply in_map_iff in Hin.
  destruct Hin as (t & E & Hin). rewrite Forall_forall in F.
  specialize (F t Hin). lia.
Qed.

Lemma quiet_linked (P : Timer -> Prop) (ts : list Timer) :
  pendingAutoSave ts = [] ->
  Forall (fun t => isAutoSave t = true -> P t) ts.
Proof.
  rewrite pendingAutoSave_nil. apply Forall_impl. intros; congruence.
Qed.

Lemma cancelRef_quiet (r : option handle) (last : Z) (ts : list Timer) :
  Forall (fun t => isAutoSave t = true ->
                   r = Some (timerHandle t) /\ due t = last + 200) ts ->
  pendingAutoSave (cancelRef r ts) = [].
Proof.
  intros H. destruct r as [h|]; simpl.
  - apply cancel_linked. eapply Forall_impl; [|exact H]. simpl. tauto.
  - apply unlinked_none. eapply Forall_impl; [|exact H]. simpl. tauto.
Qed.

Lemma Forall_cancelRef (P : Timer -> Prop) (r : option handle)
  (ts : list Timer) : Forall P ts -> Forall P (cancelRef r ts).
Proof. destruct r; simpl; [apply Forall_cancel | auto]. Qed.

Lemma NoDup_cancelRef (r : option handle) (ts : list Timer) :
  NoDup (map timerHandle ts) -> NoDup (map timerHandle (cancelRef r ts)).
Proof. destruct r; simpl; [apply NoDup_cancel | auto]. Qed.

Lemma cancelRef_snoc_message (r : option handle) (last : Z) (next : handle)
  (d : Z) (ts : list Timer) :
  Forall (fun t => isAutoSave t = true ->
                   r = Some (timerHandle t) /\ due t = last + 200) ts ->
  pendingAutoSave (cancelRef r (ts ++ [mkTimer next d ClearMessage])) = [].
Proof.
  intros H. apply (cancelRef_quiet r last).
  apply Forall_app. split; [assumption|].
  constructor; [discriminate | constructor].
Qed.

Lemma timersOk_saveScannedBarcode (v : jsstring) (now : Z) (s : Home) :
  timersOk s -> timersOk (saveScannedBarcode v now s).
Proof.
  intros [F D A].
  destruct (trim v) as [|c r] eqn:E.
  { now rewrite saveScannedBarcode_blank. }
  assert (N : trim v <> []) by (rewrite E; discriminate).
  destruct (alreadyScanned (scannedItemsRef s) (trim v)) eqn:S;
    [rewrite saveScannedBarcode_duplicate by assumption
    |rewrite saveScannedBarcode_fresh by assumption];
    (constructor; simpl;
     [ apply Forall_cancelRef, fresh_snoc, F
     | apply NoDup_cancelRef, distinct_snoc; assumption
     | apply quiet_linked; eapply cancelRef_snoc_message; exact A ]).
Qed.

Lemma timersOk_handleGlobalKeyDown (e : KeyboardEvent) (now : Z) (s : Home) :
  timersOk s -> timersOk (handleGlobalKeyDown e now s).
Proof.
  intros T.
  destruct (listenerIsScanning s) eqn:L;
    [|now rewrite handleGlobalKeyDown_paused].
  destruct (jsstring_eqb (key e) Enter) eqn:K.
  - apply jsstring_eqb_eq in K. rewrite handleGlobalKeyDown_Enter by assumption.
    destruct (truthy (scanBufferRef s));
      [now apply timersOk_saveScannedBarcode | assumption].
  - destruct (isCharacterInput e) eqn:C;
      [|now rewrite handleGlobalKeyDown_other].
    rewrite handleGlobalKeyDown_character by assumption.
    destruct T as [F D A]. constructor; simpl.
    + apply fresh_snoc, Forall_cancelRef, F.
    + apply distinct_snoc;
        [apply Forall_cancelRef, F | apply NoDup_cancelRef, D].
    + apply Forall_app. split.
      * apply quiet_linked. eapply cancelRef_quiet; exact A.
      * constructor; [simpl; auto | constructor].
Qed.

Lemma timersOk_clearTimeout (h : handle) (s : Home) :
  timersOk s -> timersOk (clearTimeout h s).
Proof.
  intros [F D A]. constructor; simpl.
  - now apply Forall_cancel.
  - now apply NoDup_cancel.
  - now apply Forall_cancel.
Qed.

Lemma timersOk_clearMessageLater (d now : Z) (s : Home) :
  timersOk s -> timersOk (clearMessageLater d now s).
Proof.
  intros [F D A]. constructor; simpl.
  - now apply fresh_snoc.
  - now apply distinct_snoc.
  - apply Forall_app. split; [assumption|].
    constructor; [discriminate | constructor].
Qed.

Lemma timersOk_frame (s s' : Home) :
  timers s' = timers s -> nextHandle s' = nextHandle s ->
  autoSaveTimeoutRef s' = autoSaveTimeoutRef s ->
  lastKeyTimeRef s' = lastKeyTimeRef s ->
  timersOk s -> timersOk s'.
Proof.
  intros E1 E2 E3 E4 [F D A]. constructor; rewrite ?E1, ?E2; auto.
  eapply Forall_impl; [|exact A]. simpl. intros t. now rewrite E3, E4.
Qed.

Lemma timersOk_autoSaveCallback (now : Z) (s : Home) :
  timersOk s -> timersOk (autoSaveCallback now s).
Proof.
  intros T. rewrite autoSaveCallback_eq.
  destruct (truthy (scanBufferRef s));
    [now apply timersOk_saveScannedBarcode | assumption].
Qed.

Lemma timersOk_commit (s : Home) : timersOk s -> timersOk (commit s).
Proof.
  intros T. unfold commit.
  destruct (Bool.eqb _ _).
  - now apply (timersOk_frame s).
  - destruct (autoSaveTimeoutRef _) as [h|] eqn:R.
    + apply (timersOk_frame (clearTimeout h s)); try reflexivity.
      now apply timersOk_clearTimeout.
    + now apply (timersOk_frame s).
Qed.

Lemma timersOk_dispatch (ev : Event) (s s' : Home) :
  timersOk s -> dispatch ev s = Some s' -> timersOk s'.
Proof.
  intros T. unfold dispatch.
  destruct ev as [e now|h now| |i|c now|f now|v]; simpl.
  - intros [= <-]. now apply timersOk_commit, timersOk_handleGlobalKeyDown.
  - unfold expire. destruct (findTimer h (timers s)) as [t|]; [|discriminate].
    destruct (due t <=? now); [|discriminate]. simpl. intros [= <-].
    apply timersOk_commit. apply (timersOk_clearTimeout h) in T.
    destruct (callback t); simpl.
    + now apply timersOk_autoSaveCallback.
    + now apply (timersOk_frame (clearTimeout h s)).
  - intros [= <-]. apply timersOk_commit. now apply (timersOk_frame s).
  - intros [= <-]. apply timersOk_commit. now apply (timersOk_frame s).
  - intros [= <-]. apply timersOk_commit. unfold clearAll.
    destruct c; [|assumption].
    apply timersOk_clearMessageLater. now apply (timersOk_frame s).
  - intros [= <-]. apply timersOk_commit. unfold downloadExcel.
    destruct (Nat.eqb _ _); [now apply (timersOk_frame s)|].
    apply timersOk_clearMessageLater. now apply (timersOk_frame s).
  - intros [= <-]. apply timersOk_commit. now apply (timersOk_frame s).
Qed.

(* ================================================================= *)
(** ** Preservation of the ledger invariant *)

Lemma Forall_filter_keep {A : Type} (P : A -> Prop) (p : A -> bool)
  (l : list A) : Forall P l -> Forall P (filter p l).
Proof.
  rewrite !Forall_forall. intros H x Hx. apply filter_In in Hx. now apply H.
Qed.

Lemma ledgerOk_nil : ledgerOk [].
Proof. repeat constructor. Qed.

Lemma ledgerOk_filter (p : ScannedItem -> bool) (items : list ScannedItem) :
  ledgerOk items -> ledgerOk (filter p items).
Proof.
  intros [D T]. constructor.
  - eapply kept_distinct; [apply subseq_filter | assumption].
  - now apply Forall_filter_keep.
Qed.

Lemma ledgerOk_snoc (v : jsstring) (now : Z) (items : list ScannedItem) :
  ledgerOk items -> trim v <> [] -> ~ In (trim v) (map serialNumber items) ->
  ledgerOk (items ++ [newItem (trim v) now]).
Proof.
  intros [D T] N F. constructor.
  - rewrite map_app. simpl. apply NoDup_app; [assumption | |].
    + repeat constructor; simpl; tauto.
    + intros x Hx [<- | []]. contradiction.
  - apply Forall_app. split; [assumption|].
    constructor; [simpl; split; [apply trim_idem | assumption] | constructor].
Qed.

(** What [saveScannedBarcode] does to the list. *)
Lemma saveScannedBarcode_items (v : jsstring) (now : Z) (s : Home) :
  scannedItems (saveScannedBarcode v now s) =
  if truthy (trim v) && negb (alreadyScanned (scannedItemsRef s) (trim v))
  then scannedItems s ++ [newItem (trim v) now]
  else scannedItems s.
Proof.
  destruct (trim v) as [|c r] eqn:E.
  { now rewrite saveScannedBarcode_blank. }
  assert (N : trim v <> []) by (rewrite E; discriminate).
  rewrite <- E.
  destruct (alreadyScanned (scannedItemsRef s) (trim v)) eqn:S;
    [rewrite saveScannedBarcode_duplicate by assumption
    |rewrite saveScannedBarcode_fresh by assumption];
    rewrite E; reflexivity.
Qed.

Lemma ledgerOk_saveScannedBarcode (v : jsstring) (now : Z) (s : Home) :
  scannedItemsRef s = scannedItems s -> ledgerOk (scannedItems s) ->
  ledgerOk (scannedItems (saveScannedBarcode v now s)).
Proof.
  intros R O. rewrite saveScannedBarcode_items.
  destruct (truthy (trim v)) eqn:T; [|assumption].
  destruct (alreadyScanned _ _) eqn:S; [assumption|]. simpl.
  apply ledgerOk_snoc; [assumption | now apply truthy_true |].
  rewrite <- R. now apply alreadyScanned_false.
Qed.

Lemma ledgerOk_handleGlobalKeyDown (e : KeyboardEvent) (now : Z) (s : Home) :
  scannedItemsRef s = scannedItems s -> ledgerOk (scannedItems s) ->
  ledgerOk (scannedItems (handleGlobalKeyDown e now s)).
Proof.
  intros R O.
  destruct (listenerIsScanning s) eqn:L;
    [|now rewrite handleGlobalKeyDown_paused].
  destruct (jsstring_eqb (key e) Enter) eqn:K.
  - apply jsstring_eqb_eq in K. rewrite handleGlobalKeyDown_Enter by assumption.
    destruct (truthy (scanBufferRef s));
      [now apply ledgerOk_saveScannedBarcode | assumption].
  - destruct (isCharacterInput e) eqn:C;
      [|now rewrite handleGlobalKeyDown_other].
    now rewrite handleGlobalKeyDown_character.
Qed.

Lemma commit_scannedItems (s : Home) :
  scannedItems (commit s) = scannedItems s.
Proof.
  unfold commit. destruct s as [? [|] ? ? ? ? ? [h|] [|] ? ?]; reflexivity.
Qed.

Lemma commit_message (s : Home) : message (commit s) = message s.
Proof.
  unfold commit. destruct s as [? [|] ? ? ? ? ? [h|] [|] ? ?]; reflexivity.
Qed.

Lemma commit_scanBufferRef (s : Home) :
  scanBufferRef (commit s) = scanBufferRef s.
Proof.
  unfold commit. destruct s as [? [|] ? ? ? ? ? [h|] [|] ? ?]; reflexivity.
Qed.

Lemma commit_isScanning (s : Home) : isScanning (commit s) = isScanning s.
Proof.
  unfold commit. destruct s as [? [|] ? ? ? ? ? [h|] [|] ? ?]; reflexivity.
Qed.

Lemma ledgerOk_dispatch (ev : Event) (s s' : Home) :
  scannedItemsRef s = scannedItems s -> ledgerOk (scannedItems s) ->
  dispatch ev s = Some s' -> ledgerOk (scannedItems s').
Proof.
  intros R O. unfold dispatch.
  destruct ev as [e now|h now| |i|c now|f now|v]; simpl.
  - intros [= <-]. rewrite commit_scannedItems.
    now apply ledgerOk_handleGlobalKeyDown.
  - unfold expire. destruct (findTimer h (timers s)) as [t|]; [|discriminate].
    destruct (due t <=? now); [|discriminate]. simpl. intros [= <-].
    rewrite commit_scannedItems.
    destruct (callback t); simpl; [|assumption].
    rewrite autoSaveCallback_eq.
    destruct (truthy _); [|assumption].
    now apply ledgerOk_saveScannedBarcode.
  - intros [= <-]. now rewrite commit_scannedItems.
  - intros [= <-]. rewrite commit_scannedItems. simpl.
    now apply ledgerOk_filter.
  - intros [= <-]. rewrite commit_scannedItems. unfold clearAll.
    destruct c; [apply ledgerOk_nil | assumption].
  - intros [= <-]. rewrite commit_scannedItems. unfold downloadExcel.
    now destruct (Nat.eqb _ _).
  - intros [= <-]. now rewrite commit_scannedItems.
Qed.

(* ================================================================= *)
(** ** Reachable states are well formed *)

(** Either nothing happens, or the candidate is handled: the buffer is
    emptied and the pending auto-save cancelled. *)
Lemma saveScannedBarcode_cases (v : jsstring) (now : Z) (s : Home) :
  saveScannedBarcode v now s = s \/
  exists items m,
    saveScannedBarcode v now s =
    mkHome items (isScanning s) m [] [] (lastKeyTimeRef s)
      (scannedItemsRef s) None (listenerIsScanning s)
      (cancelRef (autoSaveTimeoutRef s)
         (timers s ++ [mkTimer (nextHandle s) (now + 2000) ClearMessage]))
      (Pos.succ (nextHandle s)).
Proof.
  destruct (trim v) as [|c r] eqn:E.
  { left. now apply saveScannedBarcode_blank. }
  assert (N : trim v <> []) by (rewrite E; discriminate).
  right. destruct (alreadyScanned (scannedItemsRef s) (trim v)) eqn:S.
  - rewrite saveScannedBarcode_duplicate by assumption. eauto.
  - rewrite saveScannedBarcode_fresh by assumption. eauto.
Qed.

Lemma saveScannedBarcode_session (v : jsstring) (now : Z) (s : Home) :
  isScanning (saveScannedBarcode v now s) = isScanning s /\
  listenerIsScanning (saveScannedBarcode v now s) = listenerIsScanning s.
Proof.
  destruct (saveScannedBarcode_cases v now s) as [-> | (items & m & ->)];
    simpl; auto.
Qed.

Lemma handleGlobalKeyDown_session (e : KeyboardEvent) (now : Z) (s : Home) :
  isScanning (handleGlobalKeyDown e now s) = isScanning s /\
  listenerIsScanning (handleGlobalKeyDown e now s) = listenerIsScanning s.
Proof.
  destruct (listenerIsScanning s) eqn:L;
    [|rewrite handleGlobalKeyDown_paused; auto].
  destruct (jsstring_eqb (key e) Enter) eqn:K.
  - apply jsstring_eqb_eq in K. rewrite handleGlobalKeyDown_Enter by assumption.
    destruct (truthy (scanBufferRef s)); [|auto].
    rewrite <- L. apply saveScannedBarcode_session.
  - destruct (isCharacterInput e) eqn:C;
      [|rewrite handleGlobalKeyDown_other; auto].
    rewrite handleGlobalKeyDown_character by assumption. simpl. auto.
Qed.

Lemma pendingAutoSave_snoc_message (h : handle) (d : Z) (ts : list Timer) :
  pendingAutoSave (ts ++ [mkTimer h d ClearMessage]) = pendingAutoSave ts.
Proof. rewrite pendingAutoSave_app. apply app_nil_r. Qed.

Lemma pausedOk_frame (s s' : Home) :
  isScanning s' = isScanning s -> scanBufferRef s' = scanBufferRef s ->
  pendingAutoSave (timers s') = pendingAutoSave (timers s) ->
  pausedOk s -> pausedOk s'.
Proof.
  unfold pausedOk. intros -> -> ->. auto.
Qed.

Lemma pausedOk_commit (s : Home) :
  listenerIsScanning s = isScanning s -> pausedOk s -> pausedOk (commit s).
Proof.
  intros L. rewrite commit_same by assumption. now apply pausedOk_frame.
Qed.

Lemma pausedOk_expire (h : handle) (now : Z) (s x : Home) :
  pausedOk s -> expire h now s = Some x ->
  pausedOk x /\ isScanning x = isScanning s
  /\ listenerIsScanning x = listenerIsScanning s.
Proof.
  intros P. unfold expire.
  destruct (findTimer h (timers s)) as [t|]; [|discriminate].
  destruct (due t <=? now); [|discriminate]. intros [= <-].
  assert (Q : pausedOk (clearTimeout h s)).
  { intros I. destruct (P I) as [B A]. split; [exact B|].
    simpl. now apply pendingAutoSave_cancel. }
  destruct (callback t); simpl.
  - rewrite autoSaveCallback_eq.
    destruct (truthy (scanBufferRef (clearTimeout h s))) eqn:T; [|auto].
    destruct (saveScannedBarcode_session (scanBufferRef (clearTimeout h s))
                now (clearTimeout h s)) as [E1 E2].
    split; [|split; [rewrite E1 | rewrite E2]; reflexivity].
    intros I. rewrite E1 in I. destruct (Q I) as [B _].
    rewrite B in T. discriminate.
  - split; [|auto]. now apply (pausedOk_frame (clearTimeout h s)).
Qed.

Lemma pausedOk_toggle (s : Home) :
  committed s -> timersOk s -> pausedOk (commit (toggleScanning s)).
Proof.
  intros [_ L] [_ _ A] I. rewrite commit_isScanning in I.
  rewrite commit_scanBufferRef. split; [reflexivity|].
  unfold commit. simpl in *. rewrite L.
  destruct (isScanning s); [simpl | discriminate].
  pose proof (cancelRef_quiet _ _ _ A) as Q.
  destruct (autoSaveTimeoutRef s); exact Q.
Qed.

Lemma wf_dispatch (ev : Event) (s s' : Home) :
  wf s -> dispatch ev s = Some s' -> wf s'.
Proof.
  intros [C T O P] D.
  assert (C' : committed s').
  { unfold dispatch in D.
    destruct (match ev with KeyDown _ _ => _ | _ => _ end);
      [|discriminate]. injection D as <-. apply commit_committed. }
  constructor; [exact C' | eapply timersOk_dispatch; eassumption
               | eapply ledgerOk_dispatch; try eassumption; apply C |].
  destruct C as [R L]. revert D. unfold dispatch.
  destruct ev as [e now|h now| |i|c now|f now|v]; simpl.
  - intros [= <-].
    destruct (handleGlobalKeyDown_session e now s) as [E1 E2].
    apply pausedOk_commit; [congruence|].
    intros I. rewrite E1 in I.
    rewrite handleGlobalKeyDown_paused by congruence. now apply P.
  - destruct (expire h now s) as [x|] eqn:X; [|discriminate].
    intros [= <-]. destruct (pausedOk_expire h now s x P X) as (Q & E1 & E2).
    apply pausedOk_commit; [congruence | exact Q].
  - intros [= <-]. apply pausedOk_toggle; [split|]; assumption.
  - intros [= <-]. apply pausedOk_commit; [exact L|].
    now apply (pausedOk_frame s).
  - intros [= <-]. unfold clearAll. destruct c.
    + apply pausedOk_commit; [exact L|]. apply (pausedOk_frame s); auto.
      apply pendingAutoSave_snoc_message.
    + now apply pausedOk_commit.
  - intros [= <-]. unfold downloadExcel. destruct (Nat.eqb _ _).
    + apply pausedOk_commit; [exact L|]. now apply (pausedOk_frame s).
    + apply pausedOk_commit; [exact L|]. apply (pausedOk_frame s); auto.
      apply pendingAutoSave_snoc_message.
  - intros [= <-]. apply pausedOk_commit; [exact L|].
    now apply (pausedOk_frame s).
Qed.

Lemma wf_initial : wf initial.
Proof.
  repeat constructor.
Qed.

Lemma reachable_wf (s : Home) : reachable s -> wf s.
Proof.
  induction 1 as [|s ev s' _ IH D]; [apply wf_initial|].
  eapply wf_dispatch; eassumption.
Qed.

Lemma wf_run (evs : list Event) (s s' : Home) :
  wf s -> run evs s = Some s' -> wf s'.
Proof.
  revert s. induction evs as [|ev evs IH]; simpl; intros s W.
  - now intros [= <-].
  - destruct (dispatch ev s) as [x|] eqn:D; [|discriminate].
    apply IH. eapply wf_dispatch; eassumption.
Qed.

Lemma reachable_run (evs : list Event) (s s' : Home) :
  reachable s -> run evs s = Some s' -> reachable s'.
Proof.
  revert s. induction evs as [|ev evs IH]; simpl; intros s W.
  - now intros [= <-].
  - destruct (dispatch ev s) as [x|] eqn:D; [|discriminate].
    apply IH. eapply reachable_dispatch; eassumption.
Qed.

(* ================================================================= *)
(** ** The silence threshold (C4) and the terminator (C10, C7) *)

(** C4.  A printable character that arrives while the session is
    enabled, more than 500 ms after the previously accepted character,
    finds the buffer reset: after the event the buffer is exactly that
    character, whatever it held before, and the character's arrival
    time is the new last-key time. *)
Theorem long_gap_starts_new_scan (s : Home) (e : KeyboardEvent) (now : Z) :
  reachable s -> isScanning s = true -> isCharacterInput e = true ->
  now - lastKeyTimeRef s > 500 ->
  exists s',
    dispatch (KeyDown e now) s = Some s' /\
    scanBufferRef s' = key e /\ lastKeyTimeRef s' = now.
Proof.
  intros R I C G. apply reachable_wf in R. destruct R as [[_ L] _ _ _].
  rewrite <- L in I.
  eexists. split; [reflexivity|].
  rewrite commit_same
    by (destruct (handleGlobalKeyDown_session e now s); congruence).
  rewrite handleGlobalKeyDown_character by assumption. simpl.
  apply Z.gt_lt, Z.gtb_lt in G. now rewrite G.
Qed.

(** After [A], [B] typed 10 ms apart, [C] arrives 501 ms later. *)
Lemma long_gap_starts_new_scan_witness :
  exists s s',
    run (keyDowns [(js "A", 1000); (js "B", 1010)]) initial = Some s /\
    dispatch (KeyDown (press (js "C")) 1511) s = Some s' /\
    scanBufferRef s = js "AB" /\ scanBufferRef s' = js "C".
Proof.
  eexists. 
  destruct (long_gap_starts_new_scan
              (mkHome [] true None (js "AB") (js "AB") 1010 [] (Some 2%positive)
                 true [mkTimer 2%positive 1210 AutoSave] 3%positive)
              (press (js "C")) 1511) as (s' & D & B & _).
  - apply (reachable_run (keyDowns [(js "A", 1000); (js "B", 1010)]) initial);
      [apply reachable_initial | reflexivity].
  - reflexivity.
  - reflexivity.
  - simpl; lia.
  - exists s'. repeat split; [exact D | exact B].
Defined.

Lemma dispatch_KeyDown (e : KeyboardEvent) (now : Z) (s : Home) :
  committed s ->
  dispatch (KeyDown e now) s =
  Some (setScannedItemsRef (scannedItems (handleGlobalKeyDown e now s))
          (handleGlobalKeyDown e now s)).
Proof.
  intros [_ L]. unfold dispatch. simpl. f_equal. apply commit_same.
  destruct (handleGlobalKeyDown_session e now s); congruence.
Qed.

(** C10.  Enter flushes what the buffer holds whatever the time since
    the last accepted character: no hypothesis relates [now] to the
    last-key time, the outcome is that of [saveScannedBarcode] on the
    buffer, and it is the same for every value of [lastKeyTimeRef].
    A buffer whose trimmed content is new becomes a record. *)
Theorem enter_flushes_stale_buffer (s : Home) (e : KeyboardEvent) (now : Z) :
  reachable s -> isScanning s = true -> key e = Enter ->
  scanBufferRef s <> [] ->
  handleGlobalKeyDown e now s = saveScannedBarcode (scanBufferRef s) now s /\
  (forall t,
     handleGlobalKeyDown e now (setLastKeyTimeRef t s) =
     setLastKeyTimeRef t (handleGlobalKeyDown e now s)) /\
  (trim (scanBufferRef s) <> [] ->
   ~ In (trim (scanBufferRef s)) (map serialNumber (scannedItems s)) ->
   exists s',
     dispatch (KeyDown e now) s = Some s' /\
     scannedItems s' =
       scannedItems s ++ [newItem (trim (scanBufferRef s)) now] /\
     scanBufferRef s' = []).
Proof.
  intros R I K B. apply reachable_wf in R. destruct R as [[Rf L] _ _ _].
  rewrite <- L in I. apply truthy_true in B.
  assert (H : handleGlobalKeyDown e now s =
              saveScannedBarcode (scanBufferRef s) now s).
  { rewrite handleGlobalKeyDown_Enter by assumption. now rewrite B. }
  split; [exact H|]. split.
  - intros t. rewrite H.
    rewrite handleGlobalKeyDown_Enter by assumption. simpl. rewrite B.
    unfold saveScannedBarcode. simpl.
    destruct (negb (truthy (trim (scanBufferRef s)))); [reflexivity|].
    destruct s as [? ? ? ? ? ? ? [h|] ? ? ?]; simpl;
      destruct (alreadyScanned _ _); reflexivity.
  - intros N F. rewrite dispatch_KeyDown by (split; assumption).
    eexists. split; [reflexivity|]. simpl. rewrite H.
    rewrite saveScannedBarcode_fresh;
      [simpl; auto | assumption | rewrite Rf; now apply alreadyScanned_false].
Qed.

(** [Z], [9] typed, then Enter 8989 ms after the last character. *)
Lemma enter_flushes_stale_buffer_witness :
  exists s s',
    run (keyDowns [(js "Z", 1000); (js "9", 1010)]) initial = Some s /\
    lastKeyTimeRef s = 1010 /\
    dispatch (KeyDown (press Enter) 9999) s = Some s' /\
    map serialNumber (scannedItems s') = [js "Z9"].
Proof.
  eexists.
  destruct (enter_flushes_stale_buffer
              (mkHome [] true None (js "Z9") (js "Z9") 1010 [] (Some 2%positive)
                 true [mkTimer 2%positive 1210 AutoSave] 3%positive)
              (press Enter) 9999) as (_ & _ & H).
  - apply (reachable_run (keyDowns [(js "Z", 1000); (js "9", 1010)]) initial);
      [apply reachable_initial | reflexivity].
  - reflexivity.
  - reflexivity.
  - discriminate.
  - destruct H as (s' & D & E & _).
    + discriminate.
    + simpl. tauto.
    + exists s'. repeat split; [exact D | now rewrite E].
Defined.

(** C7.  [saveScannedBarcode] only ever looks at the trimmed candidate:
    the duplicate test and the stored serial value use [trim], and the
    call on a value equals the call on its trimmed form.  A candidate
    that trims to the empty string leaves the whole state as it was, so
    neither the list nor the message changes.  Enter on an empty buffer
    changes nothing, and a second Enter right after a first one leaves
    the state the first one produced.  White space that a discarded
    candidate leaves at the front of the buffer does not show in a
    later candidate. *)
Theorem blank_candidate_is_discarded (s : Home) (e : KeyboardEvent) :
  reachable s -> key e = Enter ->
  (forall v now,
     saveScannedBarcode v now s = saveScannedBarcode (trim v) now s /\
     scannedItems (saveScannedBarcode v now s) =
       (if truthy (trim v)
           && negb (alreadyScanned (scannedItemsRef s) (trim v))
        then scannedItems s ++ [newItem (trim v) now]
        else scannedItems s) /\
     (trim v = [] -> saveScannedBarcode v now s = s)) /\
  (forall now, scanBufferRef s = [] -> dispatch (KeyDown e now) s = Some s) /\
  (forall now1 now2,
     exists s1,
       dispatch (KeyDown e now1) s = Some s1 /\
       dispatch (KeyDown e now2) s1 = Some s1) /\
  (forall w v now,
     trim w = [] ->
     saveScannedBarcode (w ++ v) now s = saveScannedBarcode v now s).
Proof.
  intros R K. apply reachable_wf in R.
  assert (Hid : forall x now, wf x -> truthy (scanBufferRef x) = false
                              \/ trim (scanBufferRef x) = [] ->
                dispatch (KeyDown e now) x = Some x).
  { intros x now W B. unfold dispatch. simpl. f_equal.
    destruct (listenerIsScanning x) eqn:L.
    - rewrite handleGlobalKeyDown_Enter by assumption.
      destruct B as [B | B].
      + rewrite B. apply commit_id, W.
      + rewrite saveScannedBarcode_blank by assumption.
        destruct (truthy _); apply commit_id, W.
    - rewrite handleGlobalKeyDown_paused by assumption. apply commit_id, W. }
  split; [|split; [|split]]; cycle 3.
  { intros w v now B. apply trim_blank in B.
    unfold saveScannedBarcode. now rewrite (trim_leading w v B). }
  - intros v now. split; [|split].
    + unfold saveScannedBarcode. now rewrite trim_idem.
    + apply saveScannedBarcode_items.
    + apply saveScannedBarcode_blank.
  - intros now B. apply Hid; [assumption | left; now rewrite B].
  - intros now1 now2.
    destruct (dispatch (KeyDown e now1) s) as [s1|] eqn:D; [|discriminate].
    exists s1. split; [reflexivity|].
    assert (W1 : wf s1) by (eapply wf_dispatch; eassumption).
    apply Hid; [assumption|].
    rewrite dispatch_KeyDown in D by apply R. injection D as <-. simpl.
    destruct (listenerIsScanning s) eqn:L.
    + rewrite handleGlobalKeyDown_Enter by assumption.
      destruct (truthy (scanBufferRef s)) eqn:T; [|now left].
      destruct (saveScannedBarcode_cases (scanBufferRef s) now1 s)
        as [E | (items & m & E)]; rewrite E; simpl; [|now left].
      destruct (trim (scanBufferRef s)) eqn:Tr; [now right|].
      exfalso.
      assert (N : trim (scanBufferRef s) <> []) by (rewrite Tr; discriminate).
      destruct (alreadyScanned (scannedItemsRef s) (trim (scanBufferRef s)))
        eqn:A.
      * rewrite saveScannedBarcode_duplicate in E by assumption.
        rewrite <- E in T. discriminate.
      * rewrite saveScannedBarcode_fresh in E by assumption.
        rewrite <- E in T. discriminate.
    + rewrite handleGlobalKeyDown_paused by assumption.
      destruct R as [[_ C] _ _ P]. left.
      destruct P as [B _]; [congruence | now rewrite B].
Qed.

(** A blank candidate, Enter on the empty buffer, leading blanks. *)
Lemma blank_candidate_is_discarded_witness :
  saveScannedBarcode (js "   ") 1000 initial = initial /\
  dispatch (KeyDown (press Enter) 1000) initial = Some initial /\
  saveScannedBarcode (js "  " ++ js "A1") 1000 initial =
  saveScannedBarcode (js "A1") 1000 initial.
Proof.
  destruct (blank_candidate_is_discarded initial (press Enter)
              reachable_initial eq_refl) as (H1 & H2 & _ & H4).
  split; [|split].
  - apply (H1 (js "   ") 1000). reflexivity.
  - apply H2. reflexivity.
  - apply H4. reflexivity.
Defined.

(* ================================================================= *)
(** ** The ledger: duplicates (C3) and removal (C9) *)

(** How often a serial value occurs in a list of records. *)
Lemma occurrences_snoc (v : jsstring) (x : ScannedItem)
  (items : list ScannedItem) :
  ~ In v (map serialNumber items) -> serialNumber x = v ->
  filter (fun item => jsstring_eqb (serialNumber item) v) (items ++ [x]) = [x].
Proof.
  intros F E. rewrite filter_app. simpl.
  rewrite E, jsstring_eqb_refl.
  replace (filter _ items) with (@nil ScannedItem); [reflexivity|].
  symmetry. induction items as [|y items IH]; simpl; [reflexivity|].
  simpl in F.
  destruct (jsstring_eqb (serialNumber y) v) eqn:Q.
  - apply jsstring_eqb_eq in Q. tauto.
  - apply IH. tauto.
Qed.

(** C3.  Recording a value whose trimmed form is already a serial
    value of the ledger leaves the list unchanged and sets the error
    message naming the trimmed value.  Recording a new value twice, the
    page re-rendering after each call, appends one record at the first
    call and rejects the second as a duplicate: the list then holds
    exactly one record with that serial value. *)
Theorem duplicate_is_rejected (s : Home) (v : jsstring) (now1 now2 : Z) :
  reachable s -> trim v <> [] ->
  (In (trim v) (map serialNumber (scannedItems s)) ->
   scannedItems (saveScannedBarcode v now1 s) = scannedItems s /\
   message (saveScannedBarcode v now1 s) =
     Some (mkMessage error (duplicateText (trim v)))) /\
  (~ In (trim v) (map serialNumber (scannedItems s)) ->
   let s1 := commit (saveScannedBarcode v now1 s) in
   let s2 := commit (saveScannedBarcode v now2 s1) in
   scannedItems s1 = scannedItems s ++ [newItem (trim v) now1] /\
   message s1 = Some (mkMessage success (scannedText (trim v))) /\
   scannedItems s2 = scannedItems s1 /\
   message s2 = Some (mkMessage error (duplicateText (trim v))) /\
   filter (fun item => jsstring_eqb (serialNumber item) (trim v))
          (scannedItems s2) = [newItem (trim v) now1]).
Proof.
  intros R N. apply reachable_wf in R. destruct R as [[Rf L] _ _ _].
  split.
  - intros D. apply alreadyScanned_true in D. rewrite <- Rf in D.
    rewrite saveScannedBarcode_duplicate by assumption. simpl. auto.
  - intros F s1 s2.
    assert (A : alreadyScanned (scannedItemsRef s) (trim v) = false)
      by (rewrite Rf; now apply alreadyScanned_false).
    assert (E1 : scannedItems s1 = scannedItems s ++ [newItem (trim v) now1]).
    { unfold s1. rewrite commit_scannedItems.
      now rewrite saveScannedBarcode_fresh. }
    assert (A1 : alreadyScanned (scannedItemsRef s1) (trim v) = true).
    { destruct (commit_committed (saveScannedBarcode v now1 s)) as [C _].
      fold s1 in C. rewrite C, E1. apply alreadyScanned_true.
      rewrite map_app. apply in_or_app. right. simpl. now left. }
    assert (E2 : scannedItems s2 = scannedItems s1).
    { unfold s2. rewrite commit_scannedItems.
      now rewrite saveScannedBarcode_duplicate. }
    split; [exact E1|]. split.
    { unfold s1. rewrite commit_message.
      now rewrite saveScannedBarcode_fresh. }
    split; [exact E2|]. split.
    { unfold s2. rewrite commit_message.
      now rewrite saveScannedBarcode_duplicate. }
    rewrite E2, E1. now apply occurrences_snoc.
Qed.

(** Scenario: [XYZ] recorded, then [XYZ] again. *)
Lemma duplicate_is_rejected_witness :
  let s1 := commit (saveScannedBarcode (js "XYZ") 1000 initial) in
  let s2 := commit (saveScannedBarcode (js "XYZ") 2000 s1) in
  scannedItems s2 = scannedItems s1 /\
  message s2 = Some (mkMessage error (duplicateText (js "XYZ"))) /\
  filter (fun item => jsstring_eqb (serialNumber item) (js "XYZ"))
         (scannedItems s2) = [newItem (js "XYZ") 1000].
Proof.
  destruct (duplicate_is_rejected initial (js "XYZ") 1000 2000
              reachable_initial) as [_ H]; [discriminate|].
  destruct H as (_ & _ & E & M & O); [simpl; tauto|].
  split; [exact E | split; [exact M | exact O]].
Defined.

Lemma filter_all {A : Type} (p : A -> bool) (l : list A) :
  Forall (fun x => p x = true) l -> filter p l = l.
Proof.
  induction 1 as [|x l H _ IH]; simpl; [reflexivity|]. now rewrite H, IH.
Qed.

Lemma other_ids (i : jsstring) (items : list ScannedItem) :
  ~ In i (map id items) ->
  Forall (fun item => negb (jsstring_eqb (id item) i) = true) items.
Proof.
  intros F. apply Forall_forall. intros x Hx.
  apply negb_true_iff, jsstring_eqb_neq. intros E. apply F.
  rewrite <- E. now apply in_map.
Qed.

(** C9.  [removeItem] touches nothing but the list.  When no record has
    the identifier the state is unchanged.  When the record at some
    position is the only one with that identifier, the list afterwards
    is the records before it followed by the records after it.  In
    every case no record with that identifier remains, every record
    with another identifier is kept, and the list afterwards is a
    subsequence of the list before: the records left stand in their
    former order. *)
Theorem remove_keeps_order (s : Home) (i : jsstring) :
  (~ In i (map id (scannedItems s)) -> removeItem i s = s) /\
  (forall before x after,
     scannedItems s = before ++ x :: after -> id x = i ->
     ~ In i (map id before) -> ~ In i (map id after) ->
     removeItem i s = setScannedItems (fun _ => before ++ after) s) /\
  ~ In i (map id (scannedItems (removeItem i s))) /\
  (forall item, In item (scannedItems s) -> id item <> i ->
                In item (scannedItems (removeItem i s))) /\
  subseq (scannedItems (removeItem i s)) (scannedItems s).
Proof.
  split; [|split; [|split; [|split]]].
  - intros F. unfold removeItem, setScannedItems.
    rewrite (filter_all _ _ (other_ids i _ F)). now destruct s.
  - intros before x after E X Fb Fa.
    unfold removeItem, setScannedItems. rewrite E, filter_app. simpl.
    rewrite X, jsstring_eqb_refl. simpl.
    now rewrite (filter_all _ _ (other_ids i _ Fb)),
                (filter_all _ _ (other_ids i _ Fa)).
  - simpl. rewrite in_map_iff. intros (x & E & Hx).
    apply filter_In in Hx. destruct Hx as [_ Hx].
    apply negb_true_iff, jsstring_eqb_neq in Hx. contradiction.
  - intros item Hin Hne. simpl. apply filter_In. split; [assumption|].
    now apply negb_true_iff, jsstring_eqb_neq.
  - simpl. apply subseq_filter.
Qed.

(** Removing the middle one of three records, and an absent identifier. *)
Lemma remove_keeps_order_witness :
  let a := newItem (js "A1") 1000 in
  let b := newItem (js "A2") 2000 in
  let c := newItem (js "A3") 3000 in
  let s := setScannedItems (fun _ => [a; b; c]) initial in
  removeItem (toString 2000) s = setScannedItems (fun _ => [a; c]) s /\
  removeItem (toString 4000) s = s.
Proof.
  intros a b c s.
  destruct (remove_keeps_order s (toString 2000)) as (_ & H & _).
  destruct (remove_keeps_order s (toString 4000)) as (K & _).
  split.
  - apply (H [a] b [c]); [reflexivity | reflexivity | |];
      vm_compute; intuition discriminate.
  - apply K. vm_compute. intuition discriminate.
Defined.

(* ================================================================= *)
(** ** The session gate (C8) *)

Lemma toggle_forgets_buffer (b c : jsstring) (s : Home) :
  toggleScanning (setCurrentScan c (setScanBufferRef b s)) = toggleScanning s.
Proof. reflexivity. Qed.

(** C8.  While the session is disabled a key event leaves the state as
    it is.  Disabling an enabled session empties the buffer and the
    displayed scan, leaves the list and the message alone and leaves no
    auto-save timer pending; and whatever the buffer held when the
    session was disabled, every later run of events ends in the same
    state as if it had held nothing. *)
Theorem paused_session_ignores_keys (s : Home) :
  reachable s ->
  (isScanning s = false ->
   forall e now, dispatch (KeyDown e now) s = Some s) /\
  (isScanning s = true ->
   (exists s',
      dispatch ToggleClick s = Some s' /\
      isScanning s' = false /\ scanBufferRef s' = [] /\ currentScan s' = [] /\
      scannedItems s' = scannedItems s /\ message s' = message s /\
      pendingAutoSave (timers s') = []) /\
   (forall b c evs,
      run (ToggleClick :: evs) (setCurrentScan c (setScanBufferRef b s)) =
      run (ToggleClick :: evs) (setCurrentScan [] (setScanBufferRef [] s)))).
Proof.
  intros R. pose proof (reachable_wf s R) as W. split.
  - intros I e now. destruct W as [[Rf L] _ _ _].
    unfold dispatch. simpl.
    rewrite handleGlobalKeyDown_paused by congruence.
    f_equal. apply commit_id. now split.
  - intros I. split.
    + destruct (dispatch ToggleClick s) as [s'|] eqn:D; [|discriminate].
      pose proof (wf_dispatch _ _ _ W D) as W'.
      exists s'. split; [reflexivity|].
      unfold dispatch in D. simpl in D. injection D as <-.
      assert (I' : isScanning (commit (toggleScanning s)) = false)
        by (rewrite commit_isScanning; simpl; now rewrite I).
      destruct W' as [_ _ _ P]. destruct (P I') as [B A].
      repeat split; try assumption.
      * unfold commit. simpl. destruct (Bool.eqb _ _); [reflexivity|].
        now destruct (autoSaveTimeoutRef s).
      * now rewrite commit_scannedItems.
      * now rewrite commit_message.
    + intros b c evs. cbn [run]. unfold dispatch.
      now rewrite !toggle_forgets_buffer.
Qed.

(** Pausing with [AB] in the buffer, then a key while paused. *)
Lemma paused_session_ignores_keys_witness :
  exists s s',
    run (keyDowns [(js "A", 1000); (js "B", 1010)]) initial = Some s /\
    dispatch ToggleClick s = Some s' /\
    scanBufferRef s = js "AB" /\ scanBufferRef s' = [] /\
    pendingAutoSave (timers s') = [] /\
    dispatch (KeyDown (press (js "C")) 1020) s' = Some s'.
Proof.
  eexists.
  pose (s := mkHome [] true None (js "AB") (js "AB") 1010 []
               (Some 2%positive) true [mkTimer 2%positive 1210 AutoSave]
               3%positive).
  assert (R : reachable s)
    by (apply (reachable_run (keyDowns [(js "A", 1000); (js "B", 1010)])
                 initial); [apply reachable_initial | reflexivity]).
  destruct (paused_session_ignores_keys s R) as [_ H].
  destruct H as [(s' & D & I & B & _ & _ & _ & A) _]; [reflexivity|].
  assert (R' : reachable s') by (eapply reachable_dispatch; eassumption).
  destruct (paused_session_ignores_keys s' R') as [K _].
  exists s'. split; [reflexivity|].
  repeat split; try assumption.
  now apply K.
Defined.

(* ================================================================= *)
(** ** The quiet timeout (C2) *)

Lemma same_handle_once (h : handle) (ts : list Timer) :
  NoDup (map timerHandle ts) -> Forall (fun t => timerHandle t = h) ts ->
  (List.length ts <= 1)%nat.
Proof.
  destruct ts as [|a [|b ts]]; simpl; try lia.
  intros D F. exfalso. inversion D as [|? ? Hn _]; subst. apply Hn.
  inversion F as [|? ? Ea F']; subst. inversion F' as [|? ? Eb _]; subst.
  simpl. left. congruence.
Qed.

Lemma at_most_one_autosave (s : Home) :
  timersOk s -> (List.length (pendingAutoSave (timers s)) <= 1)%nat.
Proof.
  intros [_ D A]. destruct (autoSaveTimeoutRef s) as [h|] eqn:R.
  - apply (same_handle_once h).
    + eapply kept_distinct; [apply subseq_filter | assumption].
    + apply Forall_forall. intros t Ht. apply filter_In in Ht.
      destruct Ht as [Hin Ha]. rewrite Forall_forall in A.
      destruct (A t Hin Ha) as [E _]. congruence.
  - rewrite (unlinked_none (timers s)); [simpl; lia|].
    eapply Forall_impl; [|exact A]. simpl. tauto.
Qed.

Lemma findTimer_fresh (next : handle) (d : Z) (cb : TimerCallback)
  (ts : list Timer) :
  Forall (fun t => (timerHandle t < next)%positive) ts ->
  findTimer next (ts ++ [mkTimer next d cb]) = Some (mkTimer next d cb).
Proof.
  unfold findTimer. induction 1 as [|t ts H _ IH]; simpl.
  - now rewrite Pos.eqb_refl.
  - destruct (Pos.eqb_spec (timerHandle t) next); [lia | exact IH].
Qed.

Lemma fresh_not_pending (s : Home) :
  timersOk s -> ~ In (nextHandle s) (map timerHandle (timers s)).
Proof.
  intros [F _ _]. rewrite in_map_iff. intros (t & E & Hin).
  rewrite Forall_forall in F. specialize (F t Hin). lia.
Qed.

Lemma quiet_saveScannedBarcode (v : jsstring) (now : Z) (s : Home) :
  pendingAutoSave (timers s) = [] ->
  pendingAutoSave (timers (saveScannedBarcode v now s)) = [].
Proof.
  intros Q.
  destruct (saveScannedBarcode_cases v now s) as [-> | (items & m & ->)];
    [assumption|]. simpl.
  apply pendingAutoSave_nil, Forall_cancelRef, pendingAutoSave_nil.
  now rewrite pendingAutoSave_snoc_message.
Qed.

Lemma quiet_commit (s : Home) :
  pendingAutoSave (timers s) = [] -> pendingAutoSave (timers (commit s)) = [].
Proof.
  intros Q. unfold commit. simpl. destruct (Bool.eqb _ _); [assumption|].
  destruct (autoSaveTimeoutRef s); [|assumption].
  simpl. now apply pendingAutoSave_cancel.
Qed.

(** An auto-save timer cannot run before the last accepted character
    is 200 ms old. *)
Lemma autosave_not_before (s : Home) (h : handle) (t : Z) (tm : Timer) :
  timersOk s -> findTimer h (timers s) = Some tm -> isAutoSave tm = true ->
  t < lastKeyTimeRef s + 200 -> dispatch (TimerExpired h t) s = None.
Proof.
  intros [_ _ A] Fd Au Lt. unfold dispatch, expire. rewrite Fd.
  destruct (findTimer_Some _ _ _ Fd) as [Hin _].
  rewrite Forall_forall in A. destruct (A tm Hin Au) as [_ Du].
  destruct (Z.leb_spec (due tm) t); [lia | reflexivity].
Qed.

(** C2.  In every reachable state at most one auto-save timer is
    pending, and none can run before the last accepted character is
    200 ms old.  A character accepted at [now] cancels the pending
    auto-save and arms a new one: afterwards the only pending auto-save
    is the timer with the fresh handle, due at [now + 200].  It cannot
    run earlier; when it runs, at any later instant, it hands the
    buffer content of that moment, which is not empty, to
    [saveScannedBarcode], and no auto-save is pending after it. *)
Theorem quiet_timeout_flushes_once (s : Home) (e : KeyboardEvent) (now : Z) :
  reachable s -> isScanning s = true -> isCharacterInput e = true ->
  (List.length (pendingAutoSave (timers s)) <= 1)%nat /\
  (forall h t tm,
     findTimer h (timers s) = Some tm -> isAutoSave tm = true ->
     t < lastKeyTimeRef s + 200 -> dispatch (TimerExpired h t) s = None) /\
  exists s1,
    dispatch (KeyDown e now) s = Some s1 /\
    lastKeyTimeRef s1 = now /\
    autoSaveTimeoutRef s1 = Some (nextHandle s) /\
    ~ In (nextHandle s) (map timerHandle (timers s)) /\
    pendingAutoSave (timers s1) =
      [mkTimer (nextHandle s) (now + 200) AutoSave] /\
    scanBufferRef s1 <> [] /\
    (forall t, t < now + 200 ->
               dispatch (TimerExpired (nextHandle s) t) s1 = None) /\
    (forall t, now + 200 <= t ->
       exists s2,
         dispatch (TimerExpired (nextHandle s) t) s1 = Some s2 /\
         s2 = commit (saveScannedBarcode (scanBufferRef s1) t
                        (clearTimeout (nextHandle s) s1)) /\
         pendingAutoSave (timers s2) = []).
Proof.
  intros R I C. pose proof (reachable_wf s R) as W.
  destruct W as [[Rf L] T O P].
  split; [now apply at_most_one_autosave|].
  split; [intros h t tm; now apply autosave_not_before|].
  destruct (dispatch (KeyDown e now) s) as [s1|] eqn:D; [|discriminate].
  assert (W1 : wf s1).
  { eapply wf_dispatch; [|exact D]. now constructor. }
  exists s1. split; [reflexivity|].
  rewrite dispatch_KeyDown in D by now split. injection D as D.
  rewrite handleGlobalKeyDown_character in D by congruence.
  cbn zeta in D.
  assert (Q : pendingAutoSave
                (cancelRef (autoSaveTimeoutRef s) (timers s)) = []).
  { destruct T as [_ _ A]. eapply cancelRef_quiet; exact A. }
  assert (Fr : Forall (fun t => (timerHandle t < nextHandle s)%positive)
                 (cancelRef (autoSaveTimeoutRef s) (timers s))).
  { apply Forall_cancelRef. now destruct T. }
  assert (B : scanBufferRef s1 <> []).
  { rewrite <- D. simpl. unfold isCharacterInput in C.
    destruct (key e); [discriminate|]. intros E.
    apply app_eq_nil in E. destruct E; discriminate. }
  assert (Fd : findTimer (nextHandle s) (timers s1) =
               Some (mkTimer (nextHandle s) (now + 200) AutoSave)).
  { rewrite <- D. simpl. now apply findTimer_fresh. }
  split; [now rewrite <- D|]. split; [now rewrite <- D|].
  split; [now apply fresh_not_pending|].
  split.
  { rewrite <- D. simpl. rewrite pendingAutoSave_app, Q. reflexivity. }
  split; [exact B|]. split.
  - intros t Lt. eapply autosave_not_before;
      [apply W1 | exact Fd | reflexivity |].
    rewrite <- D. simpl. exact Lt.
  - intros t Le. unfold dispatch, expire. rewrite Fd. simpl.
    destruct (Z.leb_spec (now + 200) t); [|lia]. simpl.
    eexists. split; [reflexivity|].
    rewrite autoSaveCallback_eq.
    change (scanBufferRef (clearTimeout (nextHandle s) s1))
      with (scanBufferRef s1).
    apply truthy_true in B. rewrite B. split; [reflexivity|].
    apply quiet_commit, quiet_saveScannedBarcode. simpl.
    apply cancel_linked. destruct W1 as [_ [_ _ A] _ _].
    eapply Forall_impl; [|exact A]. simpl. intros a Ha Au.
    destruct (Ha Au) as [E _]. rewrite <- E. rewrite <- D. reflexivity.
Qed.

(** Scenario: [Z], [9] typed, no Enter; the timer of [9] at 1209 and at 1210. *)
Lemma quiet_timeout_flushes_once_witness :
  exists s s1 s2,
    run (keyDowns [(js "Z", 1000)]) initial = Some s /\
    dispatch (KeyDown (press (js "9")) 1010) s = Some s1 /\
    dispatch (TimerExpired 2%positive 1209) s1 = None /\
    dispatch (TimerExpired 2%positive 1210) s1 = Some s2 /\
    map serialNumber (scannedItems s2) = [js "Z9"] /\
    pendingAutoSave (timers s2) = [].
Proof.
  eexists.
  pose (s := mkHome [] true None (js "Z") (js "Z") 1000 []
               (Some 1%positive) true [mkTimer 1%positive 1200 AutoSave]
               2%positive).
  assert (R : reachable s)
    by (apply (reachable_run (keyDowns [(js "Z", 1000)]) initial);
        [apply reachable_initial | reflexivity]).
  destruct (quiet_timeout_flushes_once s (press (js "9")) 1010 R
              eq_refl eq_refl)
    as (_ & _ & s1 & D & _ & _ & _ & _ & _ & Early & Late).
  destruct (Late 1210) as (s2 & D2 & E2 & Q); [lia|].
  exists s1, s2. split; [reflexivity|]. split; [exact D|].
  split; [apply Early; lia|]. split; [exact D2|]. split; [|exact Q].
  rewrite E2. injection D as <-. reflexivity.
Defined.

(* ================================================================= *)
(** ** A burst of characters and its terminator (C1) *)

Lemma character_step (k : jsstring) (t : Z) (s : Home) :
  committed s -> listenerIsScanning s = true -> List.length k = 1%nat ->
  exists s1,
    dispatch (KeyDown (press k) t) s = Some s1 /\
    scanBufferRef s1 =
      (if t - lastKeyTimeRef s >? 500 then [] else scanBufferRef s) ++ k /\
    scannedItems s1 = scannedItems s /\ message s1 = message s /\
    lastKeyTimeRef s1 = t /\ committed s1 /\ listenerIsScanning s1 = true.
Proof.
  intros C L K. rewrite dispatch_KeyDown by assumption.
  eexists. split; [reflexivity|].
  rewrite handleGlobalKeyDown_character;
    [|assumption | unfold isCharacterInput; simpl; now rewrite K].
  destruct C as [Rf Li]. unfold committed. simpl.
  repeat split; congruence.
Qed.

Lemma typing (ks : list (jsstring * Z)) :
  forall s,
    committed s -> listenerIsScanning s = true ->
    Forall (fun k => List.length (fst k) = 1%nat) ks ->
    within (lastKeyTimeRef s) ks ->
    exists s1,
      run (keyDowns ks) s = Some s1 /\
      scanBufferRef s1 = scanBufferRef s ++ List.concat (map fst ks) /\
      scannedItems s1 = scannedItems s /\ message s1 = message s /\
      committed s1 /\ listenerIsScanning s1 = true.
Proof.
  induction ks as [|[k t] ks IH]; intros s C L F G.
  - exists s. simpl. rewrite app_nil_r. tauto.
  - inversion F as [|? ? K F']; subst. destruct G as [G G']. simpl in K, G, G'.
    cbn [keyDowns map run fst snd]. fold (keyDowns ks).
    destruct (character_step k t s C L K)
      as (s0 & D & B & I & M & T & C0 & L0).
    rewrite <- T in G'.
    destruct (IH s0 C0 L0 F' G') as (s1 & Rn & B1 & I1 & M1 & C1 & L1).
    exists s1. rewrite D. split; [exact Rn|].
    destruct (Z.gtb_spec (t - lastKeyTimeRef s) 500); [lia|].
    rewrite B1, B, <- app_assoc.
    split; [reflexivity|]. split; [congruence|]. split; [congruence|]. auto.
Qed.

(** C1 as amended.  Start from an enabled session whose buffer is
    empty or whose last accepted character is more than 500 ms old.
    Printable characters arrive, each at most 500 ms after the one
    before, then Enter, and no timer runs in between.  Typing leaves
    the list and the message alone and fills the buffer with the
    characters in order; Enter hands exactly that string to
    [saveScannedBarcode].  If its trimmed form is not empty and not yet
    a serial value, the list gains one record with it and the buffer is
    empty again; if it is already a serial value or trims to nothing,
    the list is unchanged. *)
Theorem burst_then_enter (s : Home) (c : jsstring) (t : Z)
  (ks : list (jsstring * Z)) (te : Z) :
  reachable s -> isScanning s = true ->
  scanBufferRef s = [] \/ t - lastKeyTimeRef s > 500 ->
  Forall (fun k => List.length (fst k) = 1%nat) ((c, t) :: ks) ->
  within t ks ->
  let typed := List.concat (map fst ((c, t) :: ks)) in
  exists s1 s2,
    run (keyDowns ((c, t) :: ks)) s = Some s1 /\
    scannedItems s1 = scannedItems s /\ message s1 = message s /\
    scanBufferRef s1 = typed /\
    dispatch (KeyDown (press Enter) te) s1 = Some s2 /\
    s2 = commit (saveScannedBarcode typed te s1) /\
    (trim typed <> [] ->
     ~ In (trim typed) (map serialNumber (scannedItems s)) ->
     scannedItems s2 = scannedItems s ++ [newItem (trim typed) te] /\
     scanBufferRef s2 = []) /\
    (In (trim typed) (map serialNumber (scannedItems s)) ->
     scannedItems s2 = scannedItems s) /\
    (trim typed = [] -> scannedItems s2 = scannedItems s).
Proof.
  intros R I B0 F G typed. apply reachable_wf in R.
  destruct R as [[Rf L] _ _ _].
  inversion F as [|? ? K F']; subst. simpl in K.
  assert (Li : listenerIsScanning s = true) by congruence.
  destruct (character_step c t s (conj Rf L) Li K)
    as (s0 & D & B & I0 & M0 & T & C0 & L0).
  rewrite <- T in G.
  destruct (typing ks s0 C0 L0 F' G) as (s1 & Rn & B1 & I1 & M1 & C1 & L1).
  assert (Bt : scanBufferRef s1 = typed).
  { rewrite B1, B. unfold typed. simpl.
    destruct B0 as [-> | Gt]; [now destruct (_ >? _)|].
    apply Z.gt_lt, Z.gtb_lt in Gt. now rewrite Gt. }
  assert (Tr : truthy typed = true).
  { unfold typed. simpl. destruct c; [discriminate | reflexivity]. }
  assert (H : handleGlobalKeyDown (press Enter) te s1 =
              saveScannedBarcode typed te s1).
  { rewrite handleGlobalKeyDown_Enter by auto. now rewrite Bt, Tr. }
  assert (It : scannedItems
                 (commit (saveScannedBarcode typed te s1)) =
               if truthy (trim typed)
                  && negb (alreadyScanned (scannedItems s) (trim typed))
               then scannedItems s ++ [newItem (trim typed) te]
               else scannedItems s).
  { rewrite commit_scannedItems, saveScannedBarcode_items.
    destruct C1 as [Rf1 _]. now rewrite Rf1, I1, I0. }
  exists s1, (commit (saveScannedBarcode typed te s1)).
  split; [cbn [keyDowns map run fst snd]; now rewrite D|].
  split; [congruence|]. split; [congruence|]. split; [exact Bt|].
  split; [unfold dispatch; simpl; now rewrite H|].
  split; [reflexivity|]. split; [|split].
  - intros N Fr. apply truthy_true in N. apply alreadyScanned_false in Fr.
    rewrite It, N, Fr. split; [reflexivity|].
    rewrite commit_scanBufferRef.
    destruct (saveScannedBarcode_cases typed te s1) as [E | (? & ? & E)];
      [|now rewrite E].
    exfalso. apply truthy_true in N.
    rewrite saveScannedBarcode_fresh in E;
      [| assumption | destruct C1 as [Rf1 _]; now rewrite Rf1, I1, I0].
    rewrite <- E in Bt. simpl in Bt. rewrite <- Bt in Tr. discriminate.
  - intros Dp. apply alreadyScanned_true in Dp. rewrite It, Dp.
    now rewrite andb_false_r.
  - intros E. rewrite It, E. reflexivity.
Qed.

(** Scenario: [A,B,C,1,2,3] 10 ms apart, then Enter. *)
Lemma burst_then_enter_witness :
  let ks := [(js "B", 1010); (js "C", 1020); (js "1", 1030);
             (js "2", 1040); (js "3", 1050)] in
  exists s1 s2,
    run (keyDowns ((js "A", 1000) :: ks)) initial = Some s1 /\
    dispatch (KeyDown (press Enter) 1060) s1 = Some s2 /\
    scannedItems s2 = [newItem (js "ABC123") 1060].
Proof.
  intros ks.
  destruct (burst_then_enter initial (js "A") 1000 ks 1060)
    as (s1 & s2 & Rn & _ & _ & _ & D & _ & H & _).
  - apply reachable_initial.
  - reflexivity.
  - left. reflexivity.
  - repeat constructor.
  - simpl. lia.
  - exists s1, s2. split; [exact Rn|]. split; [exact D|].
    apply H; [discriminate | simpl; tauto].
Defined.

(** C1 as stated fails.  [A] arrives, [B] follows 300 ms later, within
    the 500 ms silence threshold, then Enter.  The auto-save timer that
    [A] armed is due after 200 ms and runs before [B] arrives: the list
    ends with the two records [A] and [B], not with one record [AB]. *)
Lemma slow_burst_is_split :
  within 1000 [(js "B", 1300)] /\
  exists s',
    run [KeyDown (press (js "A")) 1000; TimerExpired 1%positive 1200;
         KeyDown (press (js "B")) 1300; KeyDown (press Enter) 1310]
      initial = Some s' /\
    map serialNumber (scannedItems s') = [js "A"; js "B"] /\
    map serialNumber (scannedItems s') <> [js "AB"].
Proof.
  split; [simpl; lia|].
  eexists. split; [reflexivity|]. split; [reflexivity | discriminate].
Qed.

(* ================================================================= *)
(** ** Identifiers (C6) *)

(** What one event can do to the list: nothing, append one record
    stamped with the instant of the event, or keep a selection. *)
Lemma dispatch_ledger (ev : Event) (s s' : Home) :
  dispatch ev s = Some s' ->
  scannedItems s' = scannedItems s \/
  (exists v now, eventTime ev = Some now /\
                 scannedItems s' = scannedItems s ++ [newItem v now]) \/
  (exists p, scannedItems s' = filter p (scannedItems s)).
Proof.
  assert (Sv : forall v now x,
             scannedItems (saveScannedBarcode v now x) = scannedItems x \/
             scannedItems (saveScannedBarcode v now x) =
               scannedItems x ++ [newItem (trim v) now]).
  { intros v now x. rewrite saveScannedBarcode_items.
    destruct (_ && _); auto. }
  unfold dispatch.
  destruct ev as [e now|h now| |i|c now|f now|v]; simpl.
  - intros [= <-]. rewrite commit_scannedItems.
    destruct (listenerIsScanning s) eqn:L;
      [|rewrite handleGlobalKeyDown_paused; auto].
    destruct (jsstring_eqb (key e) Enter) eqn:K.
    + apply jsstring_eqb_eq in K.
      rewrite handleGlobalKeyDown_Enter by assumption.
      destruct (truthy _); [|auto].
      destruct (Sv (scanBufferRef s) now s) as [E | E]; rewrite E;
        [auto | right; left; eauto].
    + destruct (isCharacterInput e) eqn:C;
        [|rewrite handleGlobalKeyDown_other; auto].
      rewrite handleGlobalKeyDown_character by assumption. auto.
  - unfold expire. destruct (findTimer h (timers s)) as [t|]; [|discriminate].
    destruct (due t <=? now); [|discriminate]. simpl. intros [= <-].
    rewrite commit_scannedItems. destruct (callback t); simpl; [|auto].
    rewrite autoSaveCallback_eq. destruct (truthy _); [|auto].
    destruct (Sv (scanBufferRef (clearTimeout h s)) now (clearTimeout h s))
      as [E | E]; rewrite E; simpl; [auto | right; left; eauto].
  - intros [= <-]. rewrite commit_scannedItems. auto.
  - intros [= <-]. rewrite commit_scannedItems. simpl. eauto.
  - intros [= <-]. rewrite commit_scannedItems. unfold clearAll.
    destruct c; [|auto]. right. right. exists (fun _ => false). simpl.
    induction (scannedItems s); auto.
  - intros [= <-]. rewrite commit_scannedItems. unfold downloadExcel.
    destruct (Nat.eqb _ _); auto.
  - intros [= <-]. rewrite commit_scannedItems. auto.
Qed.

Lemma idBefore_irrefl (a : jsstring) : ~ idBefore a a.
Proof. unfold idBefore. destruct (toNumber a); [lia | auto]. Qed.

Lemma NoDup_of_sorted_ids (items : list ScannedItem) :
  StronglySorted (fun a b => idBefore (id a) (id b)) items ->
  NoDup (map id items).
Proof.
  induction 1 as [|x items S IH H]; simpl; constructor; [|assumption].
  rewrite in_map_iff. intros (y & E & Hy).
  rewrite Forall_forall in H. specialize (H y Hy). rewrite E in H.
  now apply idBefore_irrefl in H.
Qed.

(** Identifiers in the order of the numbers they denote, all below
    [lo]: kept by what is left of a list, and by a record created at a
    reading from [lo] on. *)
Lemma ids_kept (lo : Z) (p : ScannedItem -> bool) (items : list ScannedItem) :
  StronglySorted (fun a b => idBefore (id a) (id b)) items ->
  Forall (fun item => exists n, toNumber (id item) = Some n /\ n < lo) items ->
  StronglySorted (fun a b => idBefore (id a) (id b)) (filter p items) /\
  Forall (fun item => exists n, toNumber (id item) = Some n /\ n < lo)
         (filter p items).
Proof.
  intros S B. split.
  - eapply subseq_sorted; [apply subseq_filter | exact S].
  - now apply Forall_filter_keep.
Qed.

Lemma ids_created (lo now : Z) (v : jsstring) (items : list ScannedItem) :
  StronglySorted (fun a b => idBefore (id a) (id b)) items ->
  Forall (fun item => exists n, toNumber (id item) = Some n /\ n < lo) items ->
  lo <= now ->
  StronglySorted (fun a b => idBefore (id a) (id b))
                 (items ++ [newItem v now]) /\
  Forall (fun item => exists n, toNumber (id item) = Some n /\ n < now + 1)
         (items ++ [newItem v now]).
Proof.
  intros S B Le. split.
  - induction S as [|x items S IH H]; simpl.
    + repeat constructor.
    + inversion B as [|? ? (n & En & Ln) B']; subst.
      constructor; [auto|].
      apply Forall_app. split; [exact H|].
      constructor; [|constructor].
      unfold idBefore. simpl. rewrite En, toNumber_toString. lia.
  - apply Forall_app. split.
    + eapply Forall_impl; [|exact B]. simpl.
      intros item (n & En & Ln). exists n. split; [exact En | lia].
    + constructor; [|constructor]. exists now. simpl.
      split; [apply toNumber_toString | lia].
Qed.

Lemma later_readings (t lo : Z) (ts : list Z) :
  StronglySorted Z.lt (t :: ts) -> lo <= t ->
  StronglySorted Z.lt ts /\ Forall (fun u => t + 1 <= u) ts.
Proof.
  intros S _. apply StronglySorted_inv in S. destruct S as [S H].
  split; [exact S|]. eapply Forall_impl; [|exact H]. simpl. intros; lia.
Qed.

(** Along a run of the keyboard page whose records are created at
    increasing readings, the identifiers stay in order. *)
Lemma run_ids_sorted (evs : list Event) :
  forall s s' lo,
    StronglySorted (fun a b => idBefore (id a) (id b)) (scannedItems s) ->
    Forall (fun item => exists n, toNumber (id item) = Some n /\ n < lo)
           (scannedItems s) ->
    StronglySorted Z.lt (creationTimes evs s) ->
    Forall (fun t => lo <= t) (creationTimes evs s) ->
    run evs s = Some s' ->
    StronglySorted (fun a b => idBefore (id a) (id b)) (scannedItems s').
Proof.
  induction evs as [|ev evs IH]; intros s s' lo S B T L; simpl.
  - now intros [= <-].
  - simpl in T, L. destruct (dispatch ev s) as [x|] eqn:D; [|discriminate].
    destruct (dispatch_ledger ev s x D)
      as [E | [(v & now & Ev & E) | (p & E)]].
    + rewrite E, Nat.ltb_irrefl in T, L.
      apply (IH x s' lo); rewrite ?E; auto;
        now destruct (eventTime ev).
    + rewrite Ev, E in T, L. rewrite length_app in T, L. simpl in T, L.
      replace (List.length (scannedItems s) <? List.length (scannedItems s) + 1)%nat
        with true in T, L by (symmetry; apply Nat.ltb_lt; lia).
      inversion L as [|? ? Le L']; subst.
      destruct (later_readings _ _ _ T Le) as [T' L''].
      destruct (ids_created lo now v _ S B Le) as [S' B'].
      apply (IH x s' (now + 1)); rewrite ?E; auto.
    + assert (F : (List.length (scannedItems s) <? List.length (scannedItems x))%nat
                  = false).
      { apply Nat.ltb_ge. rewrite E. apply filter_length_le. }
      rewrite F in T, L.
      destruct (ids_kept lo p _ S B) as [S' B'].
      apply (IH x s' lo); rewrite ?E; auto;
        now destruct (eventTime ev).
Qed.

(** The same along a run of the camera page. *)
Lemma camera_run_ids_sorted (evs : list Camera.Event) :
  forall s s' lo,
    StronglySorted (fun a b => idBefore (id a) (id b))
                   (Camera.scannedItems s) ->
    Forall (fun item => exists n, toNumber (id item) = Some n /\ n < lo)
           (Camera.scannedItems s) ->
    StronglySorted Z.lt (cameraCreationTimes evs s) ->
    Forall (fun t => lo <= t) (cameraCreationTimes evs s) ->
    Camera.run evs s = Some s' ->
    StronglySorted (fun a b => idBefore (id a) (id b))
                   (Camera.scannedItems s').
Proof.
  induction evs as [|ev evs IH]; intros s s' lo S B T L; simpl.
  - now intros [= <-].
  - simpl in T, L.
    destruct ev as [started| |v now|i]; simpl in *.
    + apply (IH _ s' lo); auto; now destruct started.
    + apply (IH _ s' lo); auto.
    + destruct (Camera.scannerRef s) as [closedOver|]; [|discriminate].
      unfold Camera.handleScanSuccess in *.
      destruct (alreadyScanned closedOver v); simpl in *.
      * rewrite Nat.ltb_irrefl in T, L. apply (IH _ s' lo); auto.
      * rewrite length_app in T, L. simpl in T, L.
        replace (List.length (Camera.scannedItems s)
                 <? List.length (Camera.scannedItems s) + 1)%nat
          with true in T, L by (symmetry; apply Nat.ltb_lt; lia).
        inversion L as [|? ? Le L']; subst.
        destruct (later_readings _ _ _ T Le) as [T' L''].
        destruct (ids_created lo now v _ S B Le) as [S' B'].
        apply (IH _ s' (now + 1)); auto.
    + destruct (ids_kept lo (fun item => negb (jsstring_eqb (id item) i))
                  _ S B) as [S' B'].
      apply (IH _ s' lo); auto.
Qed.

Lemma first_reading_bound (ts : list Z) :
  StronglySorted Z.lt ts -> exists lo, Forall (fun t => lo <= t) ts.
Proof.
  destruct ts as [|t ts]; intros S; [exists 0; constructor|].
  exists t. apply StronglySorted_inv in S. destruct S as [_ H].
  constructor; [lia|]. eapply Forall_impl; [|exact H]. simpl. intros; lia.
Qed.

(** C6 as amended.  Identifiers are made of the clock readings at
    which records are created.  Along every run of the keyboard page,
    and along every run of the camera page, in which each record is
    created at a later reading than the record created before it, the
    identifiers of the records in the list are pairwise distinct and,
    read as numbers, increase strictly in insertion order.  The
    readings of events that create no record do not matter. *)
Theorem ids_increase_with_clock (evs : list Event) (s : Home)
  (cevs : list Camera.Event) (cs : Camera.Home) :
  (StronglySorted Z.lt (creationTimes evs initial) ->
   run evs initial = Some s ->
   StronglySorted (fun a b => idBefore (id a) (id b)) (scannedItems s) /\
   NoDup (map id (scannedItems s))) /\
  (StronglySorted Z.lt (cameraCreationTimes cevs Camera.initial) ->
   Camera.run cevs Camera.initial = Some cs ->
   StronglySorted (fun a b => idBefore (id a) (id b))
                  (Camera.scannedItems cs) /\
   NoDup (map id (Camera.scannedItems cs))).
Proof.
  split; intros T Rn; destruct (first_reading_bound _ T) as [lo L].
  - assert (S : StronglySorted (fun a b => idBefore (id a) (id b))
                  (scannedItems s))
      by (apply (run_ids_sorted evs initial s lo); auto; constructor).
    split; [exact S | now apply NoDup_of_sorted_ids].
  - assert (S : StronglySorted (fun a b => idBefore (id a) (id b))
                  (Camera.scannedItems cs))
      by (apply (camera_run_ids_sorted cevs Camera.initial cs lo); auto;
          constructor).
    split; [exact S | now apply NoDup_of_sorted_ids].
Qed.

(** Two scans on the keyboard page whose characters arrive in the
    millisecond of the first Enter, and one code decoded twice by the
    camera: the records are created at different readings. *)
Lemma ids_increase_with_clock_witness :
  exists s cs,
    run [KeyDown (press (js "A")) 1000; KeyDown (press Enter) 1000;
         KeyDown (press (js "B")) 1000; KeyDown (press Enter) 1001]
      initial = Some s /\
    Camera.run [Camera.StartClick true; Camera.Decoded (js "X") 1000;
                Camera.Decoded (js "X") 1100] Camera.initial = Some cs /\
    NoDup (map id (scannedItems s)) /\
    NoDup (map id (Camera.scannedItems cs)).
Proof.
  eexists. eexists.
  split; [vm_compute; reflexivity|]. split; [vm_compute; reflexivity|].
  match goal with |- NoDup (map id (scannedItems ?s)) /\
                     NoDup (map id (Camera.scannedItems ?cs)) =>
    destruct (ids_increase_with_clock
                [KeyDown (press (js "A")) 1000; KeyDown (press Enter) 1000;
                 KeyDown (press (js "B")) 1000; KeyDown (press Enter) 1001]
                s
                [Camera.StartClick true; Camera.Decoded (js "X") 1000;
                 Camera.Decoded (js "X") 1100] cs) as [P C]
  end.
  split.
  - apply P; [vm_compute; repeat constructor | vm_compute; reflexivity].
  - apply C; [vm_compute; repeat constructor | vm_compute; reflexivity].
Defined.

(** C6 as stated fails.  Two scans handled while the clock reads the
    same millisecond give two records with the same identifier: the
    later identifier is not greater, and the two are not distinct. *)
Lemma same_millisecond_same_id :
  exists s a b,
    run [KeyDown (press (js "A")) 1000; KeyDown (press Enter) 1000;
         KeyDown (press (js "B")) 1000; KeyDown (press Enter) 1000]
      initial = Some s /\
    scannedItems s = [a; b] /\ serialNumber a <> serialNumber b /\
    id a = id b /\ ~ idBefore (id a) (id b) /\
    ~ NoDup (map id (scannedItems s)).
Proof.
  eexists. exists (newItem (js "A") 1000), (newItem (js "B") 1000).
  split; [reflexivity|]. split; [reflexivity|].
  split; [discriminate|]. split; [reflexivity|].
  split; [apply idBefore_irrefl|].
  simpl. intros H. inversion H as [|? ? Hn _]; subst. apply Hn. now left.
Qed.

(* ================================================================= *)
(** ** Uniqueness of serial values (C5) *)

(** X6.  On the keyboard page the serial values of a reachable state are
    trimmed, non-empty and pairwise distinct, also when compared after
    trimming: both entry paths, Enter and the auto-save timer, go
    through [saveScannedBarcode]. *)
Lemma keyboard_serials_distinct (s : Home) :
  reachable s ->
  NoDup (map (fun item => trim (serialNumber item)) (scannedItems s)) /\
  Forall (fun item => trim (serialNumber item) = serialNumber item
                      /\ serialNumber item <> []) (scannedItems s).
Proof.
  intros R. apply reachable_wf in R. destruct R as [_ _ [D T] _].
  split; [|exact T].
  rewrite (map_ext_in _ serialNumber); [exact D|].
  intros item Hin. rewrite Forall_forall in T. now apply T.
Qed.

(** With the current list in the closure, the camera handler rejects a
    serial value that is already recorded. *)
Lemma camera_current_list_rejects (v : jsstring) (now : Z)
  (s : Camera.Home) :
  alreadyScanned (Camera.scannedItems s) v = true ->
  Camera.scannedItems
    (Camera.handleScanSuccess (Camera.scannedItems s) v now s) =
  Camera.scannedItems s.
Proof.
  intros A. unfold Camera.handleScanSuccess. now rewrite A.
Qed.

(** C5.  The camera page breaks the invariant.  The scanner is started
    on an empty list and decodes the code [X] twice.  The success
    callback still tests the list of the render in which the scanner
    was started, finds it empty both times, and the list ends with two
    records of serial value [X]. *)
Theorem camera_records_same_code_twice :
  exists s,
    Camera.run [Camera.StartClick true;
                Camera.Decoded (js "X") 1000; Camera.Decoded (js "X") 1100]
      Camera.initial = Some s /\
    map serialNumber (Camera.scannedItems s) = [js "X"; js "X"] /\
    ~ NoDup (map serialNumber (Camera.scannedItems s)).
Proof.
  eexists. split; [reflexivity|]. split; [reflexivity|].
  simpl. intros H. inversion H as [|? ? Hn _]; subst. apply Hn. now left.
Qed.

(* ================================================================= *)
(** ** Further properties of the keyboard page *)

Lemma findTimer_cancel (h : handle) (ts : list Timer) :
  findTimer h (cancel h ts) = None.
Proof.
  unfold findTimer, cancel. induction ts as [|t ts IH]; simpl; [reflexivity|].
  destruct (Pos.eqb_spec (timerHandle t) h) as [E|N]; simpl; [exact IH|].
  destruct (Pos.eqb_spec (timerHandle t) h); [contradiction | exact IH].
Qed.

Lemma trim_nonempty (v : jsstring) : trim v <> [] -> truthy v = true.
Proof. destruct v; [intros H; now elim H | reflexivity]. Qed.

(** [saveScannedBarcode] on a candidate that does not trim to nothing. *)
Lemma saveScannedBarcode_handled (v : jsstring) (now : Z) (s : Home) :
  trim v <> [] ->
  exists items m,
    saveScannedBarcode v now s =
    mkHome items (isScanning s) m [] [] (lastKeyTimeRef s)
      (scannedItemsRef s) None (listenerIsScanning s)
      (cancelRef (autoSaveTimeoutRef s)
         (timers s ++ [mkTimer (nextHandle s) (now + 2000) ClearMessage]))
      (Pos.succ (nextHandle s)).
Proof.
  intros N. destruct (alreadyScanned (scannedItemsRef s) (trim v)) eqn:A.
  - rewrite saveScannedBarcode_duplicate by assumption. eauto.
  - rewrite saveScannedBarcode_fresh by assumption. eauto.
Qed.

(** X1.  The explicit flush cancels the implicit one.  When Enter submits a
    buffer that does not trim to nothing, the buffer is emptied, the
    ref is reset, no auto-save is pending any more, and the auto-save
    timer that was pending before can no longer run: a scan ended by
    Enter is not submitted a second time by the timer. *)
Theorem enter_cancels_auto_save (s : Home) (e : KeyboardEvent) (now : Z) :
  reachable s -> isScanning s = true -> key e = Enter ->
  trim (scanBufferRef s) <> [] ->
  exists s',
    dispatch (KeyDown e now) s = Some s' /\
    scanBufferRef s' = [] /\ autoSaveTimeoutRef s' = None /\
    pendingAutoSave (timers s') = [] /\
    forall h tm t,
      findTimer h (timers s) = Some tm -> isAutoSave tm = true ->
      dispatch (TimerExpired h t) s' = None.
Proof.
  intros R I K N. pose proof (reachable_wf s R) as [[Rf L] T O P].
  rewrite dispatch_KeyDown by now split.
  eexists. split; [reflexivity|].
  rewrite handleGlobalKeyDown_Enter by congruence.
  rewrite (trim_nonempty _ N).
  destruct (saveScannedBarcode_handled (scanBufferRef s) now s N)
    as (items & m & ->). simpl.
  destruct T as [_ _ A].
  split; [reflexivity|]. split; [reflexivity|]. split.
  - eapply cancelRef_snoc_message. exact A.
  - intros h tm t Fd Au. unfold dispatch, expire. simpl.
    destruct (findTimer_Some _ _ _ Fd) as [Hin Eh].
    rewrite Forall_forall in A. destruct (A tm Hin Au) as [Er _].
    rewrite Er, Eh. simpl. now rewrite findTimer_cancel.
Qed.

(** [Z], [9] typed, then Enter 50 ms later; the timer of [9] is gone. *)
Lemma enter_cancels_auto_save_witness :
  exists s s',
    run (keyDowns [(js "Z", 1000); (js "9", 1010)]) initial = Some s /\
    dispatch (KeyDown (press Enter) 1060) s = Some s' /\
    pendingAutoSave (timers s') = [] /\
    dispatch (TimerExpired 2%positive 1210) s' = None.
Proof.
  eexists.
  pose (s := mkHome [] true None (js "Z9") (js "Z9") 1010 []
               (Some 2%positive) true [mkTimer 2%positive 1210 AutoSave]
               3%positive).
  assert (R : reachable s)
    by (apply (reachable_run (keyDowns [(js "Z", 1000); (js "9", 1010)])
                 initial); [apply reachable_initial | reflexivity]).
  destruct (enter_cancels_auto_save s (press Enter) 1060 R eq_refl eq_refl)
    as (s' & D & _ & _ & Q & H); [discriminate|].
  exists s'. split; [reflexivity|]. split; [exact D|]. split; [exact Q|].
  apply (H 2%positive (mkTimer 2%positive 1210 AutoSave)); reflexivity.
Defined.

(** What the outcome of [saveScannedBarcode] shows of the list, the
    message and the buffer does not depend on the timer table. *)
Lemma saveScannedBarcode_timers (v : jsstring) (now : Z) (ts : list Timer)
  (s : Home) :
  trim v <> [] ->
  scannedItems (saveScannedBarcode v now (setTimers ts s)) =
    scannedItems (saveScannedBarcode v now s) /\
  message (saveScannedBarcode v now (setTimers ts s)) =
    message (saveScannedBarcode v now s) /\
  scanBufferRef (saveScannedBarcode v now (setTimers ts s)) =
    scanBufferRef (saveScannedBarcode v now s).
Proof.
  intros N.
  destruct (alreadyScanned (scannedItemsRef s) (trim v)) eqn:A.
  - rewrite !saveScannedBarcode_duplicate by assumption. simpl. auto.
  - rewrite !saveScannedBarcode_fresh by assumption. simpl. auto.
Qed.

(** X2.  The two ways a scan completes agree.  Whenever a pending auto-save
    timer may run, what it does to the list, the message and the buffer
    is what Enter pressed at that instant would do. *)
Theorem auto_save_acts_as_enter (s : Home) (h : handle) (tm : Timer) (t : Z) :
  reachable s -> findTimer h (timers s) = Some tm -> isAutoSave tm = true ->
  due tm <= t ->
  exists s1 s2,
    dispatch (TimerExpired h t) s = Some s1 /\
    dispatch (KeyDown (press Enter) t) s = Some s2 /\
    scannedItems s1 = scannedItems s2 /\ message s1 = message s2 /\
    scanBufferRef s1 = scanBufferRef s2.
Proof.
  intros R Fd Au Du. pose proof (reachable_wf s R) as [[Rf L] T O P].
  assert (I : isScanning s = true).
  { destruct (isScanning s) eqn:I; [reflexivity|].
    destruct (P I) as [_ Q]. apply pendingAutoSave_nil in Q.
    destruct (findTimer_Some _ _ _ Fd) as [Hin _].
    rewrite Forall_forall in Q. specialize (Q tm Hin). congruence. }
  rewrite dispatch_KeyDown by now split.
  unfold dispatch, expire. rewrite Fd.
  destruct (Z.leb_spec (due tm) t); [|lia].
  unfold isAutoSave in Au. destruct (callback tm); [|discriminate].
  simpl. do 2 eexists. split; [reflexivity|]. split; [reflexivity|].
  rewrite commit_scannedItems, commit_message, commit_scanBufferRef.
  rewrite autoSaveCallback_eq.
  rewrite handleGlobalKeyDown_Enter by (congruence || reflexivity).
  change (scanBufferRef (clearTimeout h s)) with (scanBufferRef s).
  destruct (truthy (scanBufferRef s)) eqn:B; [|simpl; auto].
  destruct (trim (scanBufferRef s)) eqn:Tr.
  - rewrite !saveScannedBarcode_blank by assumption. simpl. auto.
  - apply (saveScannedBarcode_timers (scanBufferRef s) t
             (cancel h (timers s)) s).
    rewrite Tr. discriminate.
Qed.

(** [Z], [9] typed; the timer of [9] at 1210 against Enter at 1210. *)
Lemma auto_save_acts_as_enter_witness :
  exists s s1 s2,
    run (keyDowns [(js "Z", 1000); (js "9", 1010)]) initial = Some s /\
    dispatch (TimerExpired 2%positive 1210) s = Some s1 /\
    dispatch (KeyDown (press Enter) 1210) s = Some s2 /\
    scannedItems s1 = scannedItems s2.
Proof.
  eexists.
  pose (s := mkHome [] true None (js "Z9") (js "Z9") 1010 []
               (Some 2%positive) true [mkTimer 2%positive 1210 AutoSave]
               3%positive).
  assert (R : reachable s)
    by (apply (reachable_run (keyDowns [(js "Z", 1000); (js "9", 1010)])
                 initial); [apply reachable_initial | reflexivity]).
  destruct (auto_save_acts_as_enter s 2%positive
              (mkTimer 2%positive 1210 AutoSave) 1210 R eq_refl eq_refl)
    as (s1 & s2 & D1 & D2 & E & _); [simpl; lia|].
  exists s1, s2. split; [reflexivity|]. auto.
Defined.

Lemma ignored_key_dispatch (ev : Event) (s : Home) :
  wf s -> ignoredKey ev = true -> dispatch ev s = Some s.
Proof.
  intros W I. destruct ev as [e now| | | | | |]; try discriminate.
  simpl in I. apply andb_true_iff in I. destruct I as [K C].
  apply negb_true_iff in K, C.
  rewrite dispatch_KeyDown by apply W.
  rewrite handleGlobalKeyDown_other by assumption.
  f_equal. destruct W as [[Rf _] _ _ _]. destruct s; simpl in *. now subst.
Qed.

(** X3.  Keys the page has no branch for are transparent.  A key event that
    is neither Enter nor a character (Shift, Tab, an arrow, a letter
    with Ctrl, Meta or Alt held) changes nothing, not even the last-key
    time: taking all such events out of a run of events changes neither
    whether the run can happen nor the state it ends in. *)
Theorem ignored_keys_are_transparent (evs : list Event) (s : Home) :
  reachable s ->
  run evs s = run (filter (fun ev => negb (ignoredKey ev)) evs) s.
Proof.
  intros R. apply reachable_wf in R. revert s R.
  induction evs as [|ev evs IH]; intros s W; [reflexivity|].
  cbn [filter]. destruct (ignoredKey ev) eqn:I; cbn [negb run].
  - rewrite (ignored_key_dispatch ev s W I). now apply IH.
  - destruct (dispatch ev s) as [s'|] eqn:D; [|reflexivity].
    apply IH. eapply wf_dispatch; eassumption.
Qed.

(** A scanner that sends Shift before each capital. *)
Lemma ignored_keys_are_transparent_witness :
  run [KeyDown (press (js "Shift")) 1000; KeyDown (press (js "A")) 1001;
       KeyDown (mkKey (js "v") true false false) 1002;
       KeyDown (press (js "Shift")) 1003; KeyDown (press (js "B")) 1004;
       KeyDown (press Enter) 1005] initial =
  run (keyDowns [(js "A", 1001); (js "B", 1004); (Enter, 1005)]) initial.
Proof.
  exact (ignored_keys_are_transparent
           [KeyDown (press (js "Shift")) 1000; KeyDown (press (js "A")) 1001;
            KeyDown (mkKey (js "v") true false false) 1002;
            KeyDown (press (js "Shift")) 1003; KeyDown (press (js "B")) 1004;
            KeyDown (press Enter) 1005] initial reachable_initial).
Defined.

Lemma removed_serial_absent (item : ScannedItem) (items : list ScannedItem) :
  NoDup (map serialNumber items) -> In item items ->
  ~ In (serialNumber item)
       (map serialNumber
          (filter (fun x => negb (jsstring_eqb (id x) (id item))) items)).
Proof.
  induction items as [|y items IH]; simpl; [tauto|].
  intros D [-> | Hin]; inversion D as [|? ? Hn D']; subst.
  - rewrite jsstring_eqb_refl. simpl. intros H. apply Hn.
    apply in_map_iff in H. destruct H as (x & E & Hx).
    apply filter_In in Hx. rewrite <- E. apply in_map, Hx.
  - destruct (negb (jsstring_eqb (id y) (id item))); simpl; [|auto].
    intros [E | H]; [|now apply IH].
    apply Hn. rewrite E. now apply in_map.
Qed.

(** X4.  Removal and clearing free the serial values they delete.  After
    the record of a serial value has been removed, or the list cleared
    with the confirmation given, and the page has re-rendered, recording
    that value again is accepted: it is appended as a new record at the
    end of what is left. *)
Theorem removed_serial_can_be_recorded_again (s : Home) (item : ScannedItem)
  (now later : Z) :
  reachable s -> In item (scannedItems s) ->
  (let s1 := commit (removeItem (id item) s) in
   scannedItems (saveScannedBarcode (serialNumber item) later s1) =
   filter (fun x => negb (jsstring_eqb (id x) (id item))) (scannedItems s)
   ++ [newItem (serialNumber item) later]) /\
  (let s1 := commit (clearAll true now s) in
   scannedItems (saveScannedBarcode (serialNumber item) later s1) =
   [newItem (serialNumber item) later]).
Proof.
  intros R Hin. pose proof (reachable_wf s R) as [[Rf L] T [D Tr] P].
  rewrite Forall_forall in Tr. destruct (Tr item Hin) as [Et Ne].
  split; intros s1.
  - destruct (commit_committed (removeItem (id item) s)) as [Rf1 _].
    fold s1 in Rf1.
    assert (E1 : scannedItems s1 =
                 filter (fun x => negb (jsstring_eqb (id x) (id item)))
                        (scannedItems s))
      by (unfold s1; now rewrite commit_scannedItems).
    rewrite saveScannedBarcode_items, Et, Rf1, E1.
    rewrite (proj2 (truthy_true _) Ne).
    pose proof (removed_serial_absent item _ D Hin) as A.
    apply alreadyScanned_false in A. now rewrite A.
  - destruct (commit_committed (clearAll true now s)) as [Rf1 _].
    fold s1 in Rf1.
    assert (E1 : scannedItems s1 = [])
      by (unfold s1; now rewrite commit_scannedItems).
    rewrite saveScannedBarcode_items, Et, Rf1, E1.
    now rewrite (proj2 (truthy_true _) Ne).
Qed.

(** [A1], [A2] recorded; [A1] removed and scanned again. *)
Lemma removed_serial_can_be_recorded_again_witness :
  let a := newItem (js "A1") 1000 in
  let b := newItem (js "A2") 2000 in
  let s := mkHome [a; b] true
             (Some (mkMessage success (scannedText (js "A2")))) [] [] 1995
             [a; b] None true
             [mkTimer 3%positive 3000 ClearMessage;
              mkTimer 6%positive 4000 ClearMessage] 7%positive in
  scannedItems
    (saveScannedBarcode (js "A1") 3000 (commit (removeItem (id a) s))) =
  [b; newItem (js "A1") 3000].
Proof.
  intros a b s.
  assert (R : reachable s).
  { apply (reachable_run
             (keyDowns [(js "A", 990); (js "1", 995); (Enter, 1000);
                        (js "A", 1990); (js "2", 1995); (Enter, 2000)])
             initial); [apply reachable_initial | reflexivity]. }
  destruct (removed_serial_can_be_recorded_again s a 0 3000 R) as [H _];
    [simpl; now left|].
  exact H.
Defined.

(* ----------------------------------------------------------------- *)
(** *** Message timers *)

Lemma refOk_frame (s s' : Home) :
  autoSaveTimeoutRef s' = autoSaveTimeoutRef s -> timers s' = timers s ->
  nextHandle s' = nextHandle s -> refOk s -> refOk s'.
Proof. unfold refOk. intros -> -> ->. auto. Qed.

Lemma refOk_none (s : Home) : autoSaveTimeoutRef s = None -> refOk s.
Proof. unfold refOk. intros -> h. discriminate. Qed.

Lemma refOk_clearTimeout (h : handle) (s : Home) :
  refOk s -> refOk (clearTimeout h s).
Proof.
  intros H k E. destruct (H k E) as [Lt F]. split; [exact Lt|].
  simpl. now apply Forall_cancel.
Qed.

Lemma refOk_clearMessageLater (d now : Z) (s : Home) :
  refOk s -> refOk (clearMessageLater d now s).
Proof.
  intros H k E. destruct (H k E) as [Lt F]. simpl. split; [lia|].
  apply Forall_app. split; [exact F|].
  constructor; [simpl; intros; lia | constructor].
Qed.

Lemma refOk_saveScannedBarcode (v : jsstring) (now : Z) (s : Home) :
  refOk s -> refOk (saveScannedBarcode v now s).
Proof.
  intros H.
  destruct (saveScannedBarcode_cases v now s) as [-> | (items & m & ->)];
    [assumption | now apply refOk_none].
Qed.

Lemma refOk_handleGlobalKeyDown (e : KeyboardEvent) (now : Z) (s : Home) :
  timersOk s -> refOk s -> refOk (handleGlobalKeyDown e now s).
Proof.
  intros T H.
  destruct (listenerIsScanning s) eqn:L;
    [|now rewrite handleGlobalKeyDown_paused].
  destruct (jsstring_eqb (key e) Enter) eqn:K.
  - apply jsstring_eqb_eq in K. rewrite handleGlobalKeyDown_Enter by assumption.
    destruct (truthy (scanBufferRef s));
      [now apply refOk_saveScannedBarcode | assumption].
  - destruct (isCharacterInput e) eqn:C;
      [|now rewrite handleGlobalKeyDown_other].
    rewrite handleGlobalKeyDown_character by assumption.
    intros k E. simpl in E. injection E as <-. simpl. split; [lia|].
    apply Forall_app. split.
    + destruct T as [F _ _].
      apply Forall_cancelRef. eapply Forall_impl; [|exact F].
      simpl. intros; lia.
    + constructor; [reflexivity | constructor].
Qed.

Lemma refOk_commit (s : Home) : refOk s -> refOk (commit s).
Proof.
  intros H. unfold commit. destruct (Bool.eqb _ _).
  - now apply (refOk_frame s).
  - destruct (autoSaveTimeoutRef _) as [h|] eqn:R.
    + apply (refOk_frame (clearTimeout h s)); try reflexivity.
      now apply refOk_clearTimeout.
    + now apply (refOk_frame s).
Qed.

Lemma refOk_dispatch (ev : Event) (s s' : Home) :
  timersOk s -> refOk s -> dispatch ev s = Some s' -> refOk s'.
Proof.
  intros T H. unfold dispatch.
  destruct ev as [e now|h now| |i|c now|f now|v]; simpl.
  - intros [= <-]. now apply refOk_commit, refOk_handleGlobalKeyDown.
  - unfold expire. destruct (findTimer h (timers s)) as [t|]; [|discriminate].
    destruct (due t <=? now); [|discriminate]. simpl. intros [= <-].
    apply refOk_commit. apply (refOk_clearTimeout h) in H.
    destruct (callback t); simpl.
    + rewrite autoSaveCallback_eq. destruct (truthy _); [|assumption].
      now apply refOk_saveScannedBarcode.
    + now apply (refOk_frame (clearTimeout h s)).
  - intros [= <-]. apply refOk_commit. now apply (refOk_frame s).
  - intros [= <-]. apply refOk_commit. now apply (refOk_frame s).
  - intros [= <-]. apply refOk_commit. unfold clearAll.
    destruct c; [|assumption].
    apply refOk_clearMessageLater. now apply (refOk_frame s).
  - intros [= <-]. apply refOk_commit. unfold downloadExcel.
    destruct (Nat.eqb _ _); [now apply (refOk_frame s)|].
    apply refOk_clearMessageLater. now apply (refOk_frame s).
  - intros [= <-]. apply refOk_commit. now apply (refOk_frame s).
Qed.

Lemma reachable_refOk (s : Home) : reachable s -> refOk s.
Proof.
  induction 1 as [|s ev s' R IH D]; [now apply refOk_none|].
  eapply refOk_dispatch; [|eassumption|eassumption].
  now apply reachable_wf.
Qed.

(** A message timer is not the timer the ref names. *)
Lemma message_timer_survives (r : option handle) (next : handle) (tm : Timer)
  (ts : list Timer) :
  (forall h, r = Some h ->
     (h < next)%positive /\
     Forall (fun t => timerHandle t = h -> isAutoSave t = true) ts) ->
  In tm ts -> callback tm = ClearMessage -> In tm (cancelRef r ts).
Proof.
  intros H Hin Cb. destruct r as [h|]; simpl; [|assumption].
  apply cancel_In. split; [assumption|]. intros E.
  destruct (H h eq_refl) as [_ F]. rewrite Forall_forall in F.
  specialize (F tm Hin E). unfold isAutoSave in F. now rewrite Cb in F.
Qed.

Lemma message_timer_survives_save (v : jsstring) (now : Z) (tm : Timer)
  (s : Home) :
  refOk s -> In tm (timers s) -> callback tm = ClearMessage ->
  In tm (timers (saveScannedBarcode v now s)).
Proof.
  intros H Hin Cb.
  destruct (saveScannedBarcode_cases v now s) as [-> | (items & m & ->)];
    [assumption|]. simpl.
  destruct (autoSaveTimeoutRef s) as [h|] eqn:R; simpl.
  - apply cancel_In. split; [apply in_or_app; now left|]. intros E.
    destruct (H h R) as [_ F]. rewrite Forall_forall in F.
    specialize (F tm Hin E). unfold isAutoSave in F. now rewrite Cb in F.
  - apply in_or_app. now left.
Qed.

Lemma message_timer_survives_commit (tm : Timer) (s : Home) :
  refOk s -> In tm (timers s) -> callback tm = ClearMessage ->
  In tm (timers (commit s)).
Proof.
  intros H Hin Cb. unfold commit. simpl. destruct (Bool.eqb _ _); [assumption|].
  destruct (autoSaveTimeoutRef s) as [h|] eqn:R; simpl; [|assumption].
  apply (message_timer_survives (Some h) (nextHandle s)); try assumption.
  intros k [= <-]. now apply H.
Qed.

Lemma findTimer_pending (ts : list Timer) (t : Timer) :
  NoDup (map timerHandle ts) -> In t ts ->
  findTimer (timerHandle t) ts = Some t.
Proof.
  unfold findTimer. induction ts as [|u ts IH]; simpl; [tauto|].
  inversion 1 as [|? ? Hn Hd]; subst. intros [-> | Hin].
  - now rewrite Pos.eqb_refl.
  - destruct (Pos.eqb_spec (timerHandle u) (timerHandle t)) as [E|_]; [|auto].
    exfalso. apply Hn. rewrite E. now apply in_map.
Qed.

(** X5.  The dismissal timer of a message is never cancelled.  In every
    reachable state a pending message timer stays pending through every
    event but its own expiry, and when it expires, at any instant from
    its due time on, it clears whatever message is shown then: a
    message set less than 2000 ms after an earlier one is dismissed by
    the earlier one's timer. *)
Theorem message_timers_are_never_cancelled (s : Home) (tm : Timer) :
  reachable s -> In tm (timers s) -> callback tm = ClearMessage ->
  (forall ev s',
     dispatch ev s = Some s' ->
     (forall t, ev <> TimerExpired (timerHandle tm) t) ->
     In tm (timers s')) /\
  (forall t, due tm <= t ->
     exists s',
       dispatch (TimerExpired (timerHandle tm) t) s = Some s' /\
       message s' = None).
Proof.
  intros R Hin Cb. pose proof (reachable_refOk s R) as H.
  pose proof (reachable_wf s R) as [_ T _ _]. split.
  - intros ev s' D Ne. revert D. unfold dispatch.
    destruct ev as [e now|h now| |i|c now|f now|v]; simpl.
    + intros [= <-]. apply message_timer_survives_commit; [| |assumption].
      { now apply refOk_handleGlobalKeyDown. }
      destruct (listenerIsScanning s) eqn:L;
        [|now rewrite handleGlobalKeyDown_paused].
      destruct (jsstring_eqb (key e) Enter) eqn:K.
      * apply jsstring_eqb_eq in K.
        rewrite handleGlobalKeyDown_Enter by assumption.
        destruct (truthy (scanBufferRef s));
          [now apply message_timer_survives_save | assumption].
      * destruct (isCharacterInput e) eqn:C;
          [|now rewrite handleGlobalKeyDown_other].
        rewrite handleGlobalKeyDown_character by assumption. simpl.
        apply in_or_app. left.
        now apply (message_timer_survives _ (nextHandle s)).
    + unfold expire.
      destruct (findTimer h (timers s)) as [t|]; [|discriminate].
      destruct (due t <=? now); [|discriminate]. simpl. intros [= <-].
      assert (Hc : In tm (timers (clearTimeout h s))).
      { simpl. apply cancel_In. split; [assumption|].
        intros E. apply (Ne now). now rewrite E. }
      pose proof (refOk_clearTimeout h s H) as Hr.
      destruct (callback t); simpl.
      * rewrite autoSaveCallback_eq.
        destruct (truthy _).
        -- apply message_timer_survives_commit; [| |assumption].
           ++ now apply refOk_saveScannedBarcode.
           ++ now apply message_timer_survives_save.
        -- now apply message_timer_survives_commit.
      * apply message_timer_survives_commit; [| |assumption].
        -- now apply (refOk_frame (clearTimeout h s)).
        -- exact Hc.
    + intros [= <-]. apply message_timer_survives_commit; [| |assumption].
      * now apply (refOk_frame s).
      * exact Hin.
    + intros [= <-]. apply message_timer_survives_commit; [| |assumption].
      * now apply (refOk_frame s).
      * exact Hin.
    + intros [= <-]. apply message_timer_survives_commit; [| |assumption].
      * unfold clearAll. destruct c; [|assumption].
        apply refOk_clearMessageLater. now apply (refOk_frame s).
      * unfold clearAll. destruct c; [|assumption].
        simpl. apply in_or_app. now left.
    + intros [= <-]. apply message_timer_survives_commit; [| |assumption].
      * unfold downloadExcel. destruct (Nat.eqb _ _);
          [now apply (refOk_frame s)|].
        apply refOk_clearMessageLater. now apply (refOk_frame s).
      * unfold downloadExcel. destruct (Nat.eqb _ _); [exact Hin|].
        simpl. apply in_or_app. now left.
    + intros [= <-]. apply message_timer_survives_commit; [| |assumption].
      * now apply (refOk_frame s).
      * exact Hin.
  - intros t Du. unfold dispatch, expire.
    destruct T as [_ D _]. rewrite (findTimer_pending _ _ D Hin).
    destruct (Z.leb_spec (due tm) t); [|lia]. rewrite Cb. simpl.
    eexists. split; [reflexivity|]. now rewrite commit_message.
Qed.

(** [A1] scanned at 1000 and [A2] at 2900: the timer of the first
    message outlives the second scan and clears its message at 3000. *)
Lemma message_timers_are_never_cancelled_witness :
  exists s s1 s2,
    run (keyDowns [(js "A", 990); (js "1", 995); (Enter, 1000)]) initial
      = Some s /\
    run (keyDowns [(js "A", 2890); (js "2", 2895); (Enter, 2900)]) s
      = Some s1 /\
    message s1 = Some (mkMessage success (scannedText (js "A2"))) /\
    dispatch (TimerExpired 3%positive 3000) s1 = Some s2 /\
    message s2 = None.
Proof.
  pose (tm := mkTimer 3%positive 3000 ClearMessage).
  pose (evs := keyDowns [(js "A", 990); (js "1", 995); (Enter, 1000);
                         (js "A", 2890); (js "2", 2895); (Enter, 2900)]).
  destruct (run evs initial) as [s1|] eqn:Rn; [|discriminate].
  assert (R : reachable s1)
    by (apply (reachable_run evs initial); [apply reachable_initial | exact Rn]).
  vm_compute in Rn. injection Rn as Rn.
  destruct (message_timers_are_never_cancelled s1 tm R) as [_ H].
  - rewrite <- Rn. simpl. now left.
  - reflexivity.
  - destruct (H 3000) as (s2 & D & M); [simpl; lia|].
    eexists. exists s1, s2. split; [reflexivity|].
    split; [rewrite <- Rn; reflexivity|].
    split; [rewrite <- Rn; reflexivity|]. split; [exact D | exact M].
Defined.

(* ================================================================= *)
(** ** A scanning session of the camera page *)

Lemma camera_decodes (snapshot : list ScannedItem) (ds : list (jsstring * Z)) :
  forall s,
    Camera.scannerRef s = Some snapshot ->
    exists s',
      Camera.run (decodes ds) s = Some s' /\
      Camera.scannerRef s' = Some snapshot /\
      Camera.scannedItems s' =
        Camera.scannedItems s
        ++ map (fun d => newItem (fst d) (snd d))
             (filter (fun d => negb (alreadyScanned snapshot (fst d))) ds).
Proof.
  induction ds as [|[v t] ds IH]; intros s Rf; simpl.
  - exists s. now rewrite app_nil_r.
  - rewrite Rf. unfold Camera.handleScanSuccess.
    destruct (alreadyScanned snapshot v); simpl.
    + destruct (IH (Camera.setMessage
                      (Some (mkMessage error (duplicateText v))) s) Rf)
        as (s' & Rn & Rf' & E).
      exists s'. auto.
    + match goal with |- context [Camera.run _ ?x] =>
        destruct (IH x Rf) as (s' & Rn & Rf' & E) end.
      exists s'. split; [exact Rn|]. split; [exact Rf'|].
      rewrite E. simpl. now rewrite <- app_assoc.
Qed.

(** X7.  The duplicate test of a scanning session reads the list as it was
    when scanning was started.  Whatever texts the decoder reports
    during the session, the list afterwards is the list at the start
    followed by one record for every reported text that was not in the
    list at the start, in the order reported: a text that was there is
    rejected every time, a text that was not is recorded every time it
    is reported. *)
Theorem camera_session_tests_list_at_start (s : Camera.Home)
  (ds : list (jsstring * Z)) :
  exists s',
    Camera.run (Camera.StartClick true :: decodes ds) s = Some s' /\
    Camera.scannedItems s' =
      Camera.scannedItems s
      ++ map (fun d => newItem (fst d) (snd d))
           (filter (fun d => negb (alreadyScanned (Camera.scannedItems s)
                                     (fst d))) ds).
Proof.
  cbn [Camera.run Camera.dispatch].
  destruct (camera_decodes (Camera.scannedItems s) ds
              (Camera.startScanning true s) eq_refl) as (s' & Rn & _ & E).
  exists s'. split; [exact Rn | exact E].
Qed.

(* ================================================================= *)
(** ** The input-field page with the 300 ms auto-save *)

Section DebouncePageFacts.

Import DebouncePage.

Lemma debounce_cancel_In (t : Timer) (h : handle) (ts : list Timer) :
  In t (cancel h ts) <-> In t ts /\ timerHandle t <> h.
Proof.
  unfold cancel. rewrite filter_In, negb_true_iff, Pos.eqb_neq. tauto.
Qed.

Lemma pendingSaves_nil (ts : list Timer) :
  pendingSaves ts = [] <-> Forall (fun t => isSaveValue t = false) ts.
Proof.
  unfold pendingSaves. induction ts as [|t ts IH]; simpl.
  - split; auto.
  - destruct (isSaveValue t) eqn:E.
    + split; [discriminate | inversion 1; congruence].
    + rewrite IH. split; [auto | now inversion 1].
Qed.

(** [if (ref) clearTimeout(ref)] leaves no auto-save pending. *)
Lemma debounce_ref_cancelled (s : Home) :
  debounceOk s ->
  pendingSaves
    (match autoSaveTimeoutRef s with
     | Some h => cancel h (timers s)
     | None => timers s
     end) = [].
Proof.
  intros [_ _ A _]. apply pendingSaves_nil.
  rewrite Forall_forall in *.
  destruct (autoSaveTimeoutRef s) as [h|]; intros t Ht.
  - apply debounce_cancel_In in Ht. destruct Ht as [Hin Hne].
    specialize (A t Hin). destruct (isSaveValue t); [|reflexivity].
    exfalso. apply Hne. specialize (A eq_refl). congruence.
  - specialize (A t Ht). destruct (isSaveValue t); [|reflexivity].
    now specialize (A eq_refl).
Qed.

Lemma onChange_eq (value : jsstring) (now : Z) (s : Home) :
  onChange value now s =
  mkHome (scannedItems s) (isScanning s) (message s) value
    (Some (nextHandle s))
    (match autoSaveTimeoutRef s with
     | Some h => cancel h (timers s)
     | None => timers s
     end ++ [mkTimer (nextHandle s) (now + 300) (SaveValue value)])
    (Pos.succ (nextHandle s)).
Proof.
  unfold onChange. destruct s as [? ? ? ? [h|] ? ?]; reflexivity.
Qed.

Lemma debounce_save_cases (v : jsstring) (now : Z) (s : Home) :
  (trim v = [] /\ saveScannedBarcode v now s = s) \/
  (trim v <> [] /\
   saveScannedBarcode v now s =
   mkHome
     (if alreadyScanned (scannedItems s) (trim v)
      then scannedItems s
      else scannedItems s ++ [newItem (trim v) now])
     (isScanning s)
     (Some (if alreadyScanned (scannedItems s) (trim v)
            then mkMessage error (duplicateText (trim v))
            else mkMessage success (scannedText (trim v))))
     [] (autoSaveTimeoutRef s)
     (timers s ++ [mkTimer (nextHandle s) (now + 2000) ClearMessage])
     (Pos.succ (nextHandle s))).
Proof.
  unfold saveScannedBarcode. destruct (trim v) as [|c r] eqn:E; simpl.
  - now left.
  - right. split; [discriminate|].
    destruct (alreadyScanned (scannedItems s) (c :: r)); reflexivity.
Qed.

Lemma autoSaveCallback_eq' (v : jsstring) (now : Z) (s : Home) :
  autoSaveCallback v now s = saveScannedBarcode v now s.
Proof.
  unfold autoSaveCallback. destruct (trim v) eqn:E; simpl; [|reflexivity].
  destruct (debounce_save_cases v now s) as [[_ ->] | [N _]];
    [reflexivity | contradiction].
Qed.

Lemma snoc_fresh {T : Type} (hd : T -> handle) (next : handle) (x : T)
  (ts : list T) :
  hd x = next ->
  Forall (fun t => (hd t < next)%positive) ts ->
  Forall (fun t => (hd t < Pos.succ next)%positive) (ts ++ [x]).
Proof.
  intros E H. apply Forall_app. split.
  - eapply Forall_impl; [|exact H]. simpl; intros; lia.
  - constructor; [lia | constructor].
Qed.

Lemma snoc_distinct {T : Type} (hd : T -> handle) (next : handle) (x : T)
  (ts : list T) :
  hd x = next ->
  Forall (fun t => (hd t < next)%positive) ts ->
  NoDup (map hd ts) -> NoDup (map hd (ts ++ [x])).
Proof.
  intros E F D. rewrite map_app. simpl.
  apply NoDup_app; [assumption | repeat constructor; simpl; tauto |].
  intros h Hin [<- | []]. apply in_map_iff in Hin.
  destruct Hin as (t & Et & Hin). rewrite Forall_forall in F.
  specialize (F t Hin). lia.
Qed.

Lemma debounceOk_message_timer (d : Z) (s s' : Home) :
  timers s' = timers s ++ [mkTimer (nextHandle s) d ClearMessage] ->
  nextHandle s' = Pos.succ (nextHandle s) ->
  autoSaveTimeoutRef s' = autoSaveTimeoutRef s ->
  ledgerOk (scannedItems s') ->
  debounceOk s -> debounceOk s'.
Proof.
  intros Et En Er O [F D A _]. constructor; rewrite ?Et, ?En, ?Er; auto.
  - now apply (snoc_fresh timerHandle (nextHandle s)).
  - now apply (snoc_distinct timerHandle (nextHandle s)).
  - apply Forall_app. split; [assumption|].
    constructor; [discriminate | constructor].
Qed.

Lemma debounceOk_frame (s s' : Home) :
  timers s' = timers s -> nextHandle s' = nextHandle s ->
  autoSaveTimeoutRef s' = autoSaveTimeoutRef s ->
  ledgerOk (scannedItems s') ->
  debounceOk s -> debounceOk s'.
Proof.
  intros Et En Er O [F D A _]. constructor; rewrite ?Et, ?En, ?Er; auto.
Qed.

Lemma debounceOk_clearTimeout (h : handle) (s : Home) :
  debounceOk s -> debounceOk (clearTimeout h s).
Proof.
  intros [F D A O]. constructor; simpl; auto.
  - now apply Forall_filter_keep.
  - eapply kept_distinct; [apply subseq_filter | assumption].
  - now apply Forall_filter_keep.
Qed.

Lemma debounceOk_saveScannedBarcode (v : jsstring) (now : Z) (s : Home) :
  debounceOk s -> debounceOk (saveScannedBarcode v now s).
Proof.
  intros W. destruct (debounce_save_cases v now s) as [[_ ->] | [N ->]];
    [assumption|].
  apply (debounceOk_message_timer (now + 2000) s); try reflexivity;
    [|assumption].
  simpl. destruct W as [_ _ _ O].
  destruct (alreadyScanned (scannedItems s) (trim v)) eqn:A; [assumption|].
  apply ledgerOk_snoc; [assumption | assumption |].
  now apply alreadyScanned_false.
Qed.

Lemma debounceOk_onChange (v : jsstring) (now : Z) (s : Home) :
  debounceOk s -> debounceOk (onChange v now s).
Proof.
  intros W. pose proof (debounce_ref_cancelled s W) as Q.
  destruct W as [F D A O]. rewrite onChange_eq.
  assert (F' : Forall (fun t => (timerHandle t < nextHandle s)%positive)
                 (match autoSaveTimeoutRef s with
                  | Some h => cancel h (timers s)
                  | None => timers s
                  end))
    by (destruct (autoSaveTimeoutRef s); [now apply Forall_filter_keep|auto]).
  constructor; simpl; auto.
  - now apply (snoc_fresh timerHandle (nextHandle s)).
  - apply (snoc_distinct timerHandle (nextHandle s));
      [reflexivity | assumption |].
    destruct (autoSaveTimeoutRef s); [|assumption].
    eapply kept_distinct; [apply subseq_filter | assumption].
  - apply Forall_app. split.
    + apply pendingSaves_nil in Q. eapply Forall_impl; [|exact Q].
      simpl. intros; congruence.
    + constructor; [reflexivity | constructor].
Qed.

Lemma debounceOk_dispatch (ev : Event) (s s' : Home) :
  debounceOk s -> dispatch ev s = Some s' -> debounceOk s'.
Proof.
  intros W. pose proof W as [_ _ _ O].
  destruct ev as [v now|h now| |i|c now|f now]; simpl.
  - intros [= <-]. now apply debounceOk_onChange.
  - unfold expire. destruct (findTimer h (timers s)) as [t|]; [|discriminate].
    destruct (due t <=? now); [|discriminate]. intros [= <-].
    apply (debounceOk_clearTimeout h) in W.
    destruct (callback t); simpl.
    + rewrite autoSaveCallback_eq'. now apply debounceOk_saveScannedBarcode.
    + apply (debounceOk_frame (clearTimeout h s)); try reflexivity;
        [apply W | assumption].
  - intros [= <-]. now apply (debounceOk_frame s).
  - intros [= <-]. apply (debounceOk_frame s); try reflexivity; [|assumption].
    simpl. now apply ledgerOk_filter.
  - intros [= <-]. unfold clearAll. destruct c; [|assumption].
    apply (debounceOk_message_timer (now + 2000) s); try reflexivity;
      [apply ledgerOk_nil | assumption].
  - intros [= <-]. unfold downloadExcel.
    destruct (Nat.eqb _ _); simpl.
    + now apply (debounceOk_frame s).
    + now apply (debounceOk_message_timer (now + 3000) s).
Qed.

Lemma debounce_reachable_ok (s : Home) : reachable s -> debounceOk s.
Proof.
  induction 1 as [|s ev s' _ IH D]; [repeat constructor|].
  eapply debounceOk_dispatch; eassumption.
Qed.

Lemma debounce_reachable_run (evs : list Event) (s s' : Home) :
  reachable s -> run evs s = Some s' -> reachable s'.
Proof.
  revert s. induction evs as [|ev evs IH]; simpl; intros s W.
  - now intros [= <-].
  - destruct (dispatch ev s) as [x|] eqn:D; [|discriminate].
    apply IH. eapply reachable_dispatch; eassumption.
Qed.

Lemma one_per_handle {T : Type} (hd : T -> handle) (h : handle)
  (ts : list T) :
  NoDup (map hd ts) -> Forall (fun t => hd t = h) ts ->
  (List.length ts <= 1)%nat.
Proof.
  destruct ts as [|a [|b ts]]; simpl; try lia.
  intros D F. exfalso. inversion D as [|? ? Hn _]; subst. apply Hn.
  inversion F as [|? ? Ea F']; subst. inversion F' as [|? ? Eb _]; subst.
  simpl. left. congruence.
Qed.

(** X8.  On the 300 ms page the duplicate test is part of the list update
    itself.  In every reachable state the serial values are trimmed,
    not empty and pairwise distinct, and at most one auto-save timer is
    pending. *)
Theorem debounce_page_invariant (s : Home) :
  reachable s ->
  NoDup (map serialNumber (scannedItems s)) /\
  Forall (fun item => trim (serialNumber item) = serialNumber item
                      /\ serialNumber item <> []) (scannedItems s) /\
  (List.length (pendingSaves (timers s)) <= 1)%nat.
Proof.
  intros R. apply debounce_reachable_ok in R. destruct R as [_ D A [N T]].
  split; [exact N|]. split; [exact T|].
  destruct (autoSaveTimeoutRef s) as [h|] eqn:Rf.
  - apply (one_per_handle timerHandle h).
    + eapply kept_distinct; [apply subseq_filter | exact D].
    + apply Forall_forall. intros t Ht. apply filter_In in Ht.
      destruct Ht as [Hin Hs]. rewrite Forall_forall in A.
      specialize (A t Hin Hs). congruence.
  - replace (pendingSaves (timers s)) with (@nil Timer); [simpl; lia|].
    symmetry. apply pendingSaves_nil. rewrite Forall_forall in *.
    intros t Ht. specialize (A t Ht).
    destruct (isSaveValue t); [now specialize (A eq_refl) | reflexivity].
Qed.

(** [X] typed and saved by the timer, then [X] typed again. *)
Lemma debounce_page_invariant_witness :
  exists s,
    run [InputChange (js "X") 1000; TimerExpired 1%positive 1300;
         InputChange (js " X ") 2000; TimerExpired 3%positive 2300]
      initial = Some s /\
    map serialNumber (scannedItems s) = [js "X"] /\
    NoDup (map serialNumber (scannedItems s)).
Proof.
  eexists. split; [vm_compute; reflexivity|]. split; [reflexivity|].
  refine (proj1 (debounce_page_invariant _ _)).
  apply (debounce_reachable_run
           [InputChange (js "X") 1000; TimerExpired 1%positive 1300;
            InputChange (js " X ") 2000; TimerExpired 3%positive 2300]
           initial); [apply reachable_initial | vm_compute; reflexivity].
Defined.

Lemma debounce_run_app (a b : list Event) (s : Home) :
  run (a ++ b) s =
  match run a s with
  | Some x => run b x
  | None => None
  end.
Proof.
  revert s. induction a as [|ev a IH]; intros s; simpl; [reflexivity|].
  destruct (dispatch ev s); [apply IH | reflexivity].
Qed.

Lemma debounce_changes (vs : list (jsstring * Z)) :
  forall s,
    debounceOk s ->
    exists s0,
      run (changes vs) s = Some s0 /\ debounceOk s0 /\
      scannedItems s0 = scannedItems s /\ isScanning s0 = isScanning s.
Proof.
  induction vs as [|[v t] vs IH]; intros s W.
  - exists s. repeat split; [apply W..].
  - destruct (IH (onChange v t s) (debounceOk_onChange v t s W))
      as (s0 & Rn & W0 & E & I).
    exists s0. split; [exact Rn|]. split; [exact W0|].
    rewrite E, I, onChange_eq. split; reflexivity.
Qed.

Lemma debounce_findTimer_fresh (next : handle) (x : Timer) (ts : list Timer) :
  timerHandle x = next ->
  Forall (fun t => (timerHandle t < next)%positive) ts ->
  findTimer next (ts ++ [x]) = Some x.
Proof.
  intros E. unfold findTimer. induction 1 as [|t ts H _ IH]; simpl.
  - now rewrite E, Pos.eqb_refl.
  - destruct (Pos.eqb_spec (timerHandle t) next); [lia | exact IH].
Qed.

(** X9.  The auto-save is a debounce on the whole field.  After any number
    of change events with no timer running in between, nothing has been
    recorded, exactly one auto-save is pending, and it holds the text
    of the last change: it cannot run before that change is 300 ms old,
    and when it runs it submits that text, so a text that trims to a
    new value becomes the one new record. *)
Theorem last_change_wins (s : Home) (vs : list (jsstring * Z))
  (v : jsstring) (now : Z) :
  reachable s ->
  exists s1 h,
    run (changes (vs ++ [(v, now)])) s = Some s1 /\
    scannedItems s1 = scannedItems s /\ currentScan s1 = v /\
    autoSaveTimeoutRef s1 = Some h /\
    pendingSaves (timers s1) = [mkTimer h (now + 300) (SaveValue v)] /\
    (forall t, t < now + 300 -> dispatch (TimerExpired h t) s1 = None) /\
    (forall t, now + 300 <= t ->
       dispatch (TimerExpired h t) s1 =
         Some (saveScannedBarcode v t (clearTimeout h s1)) /\
       (trim v <> [] ->
        ~ In (trim v) (map serialNumber (scannedItems s)) ->
        scannedItems (saveScannedBarcode v t (clearTimeout h s1)) =
        scannedItems s ++ [newItem (trim v) t])).
Proof.
  intros R. apply debounce_reachable_ok in R.
  destruct (debounce_changes vs s R) as (s0 & Rn & W0 & E0 & _).
  pose proof (debounce_ref_cancelled s0 W0) as Q.
  assert (F : Forall (fun t => (timerHandle t < nextHandle s0)%positive)
                (match autoSaveTimeoutRef s0 with
                 | Some h => cancel h (timers s0)
                 | None => timers s0
                 end)).
  { destruct W0 as [F _ _ _].
    destruct (autoSaveTimeoutRef s0); [now apply Forall_filter_keep | auto]. }
  exists (onChange v now s0), (nextHandle s0).
  split.
  { unfold changes. rewrite map_app. fold (changes vs).
    rewrite debounce_run_app, Rn. reflexivity. }
  assert (Fd : findTimer (nextHandle s0) (timers (onChange v now s0)) =
               Some (mkTimer (nextHandle s0) (now + 300) (SaveValue v))).
  { rewrite onChange_eq. cbn [timers].
    now apply debounce_findTimer_fresh. }
  split; [rewrite onChange_eq; exact E0|].
  split; [rewrite onChange_eq; reflexivity|].
  split; [rewrite onChange_eq; reflexivity|]. split.
  { rewrite onChange_eq. cbn [timers]. unfold pendingSaves in *.
    rewrite filter_app, Q. reflexivity. }
  split.
  - intros t Lt. cbn [dispatch]. unfold expire. rewrite Fd. cbn [due].
    destruct (Z.leb_spec (now + 300) t); [lia | reflexivity].
  - intros t Le. split.
    + cbn [dispatch]. unfold expire. rewrite Fd. cbn [due callback].
      destruct (Z.leb_spec (now + 300) t); [|lia].
      cbn [runCallback]. now rewrite autoSaveCallback_eq'.
    + intros N A. apply alreadyScanned_false in A.
      match goal with |- context [saveScannedBarcode v t ?x] =>
        destruct (debounce_save_cases v t x) as [[B _] | [_ ->]] end;
        [contradiction|].
      rewrite onChange_eq. cbn [scannedItems clearTimeout setTimers].
      now rewrite E0, A.
Qed.

(** [Z], then [Z9] 40 ms later: one record [Z9] once 300 ms are over. *)
Lemma last_change_wins_witness :
  exists s1 s2,
    run (changes [(js "Z", 1000); (js "Z9", 1040)]) initial = Some s1 /\
    dispatch (TimerExpired 2%positive 1339) s1 = None /\
    dispatch (TimerExpired 2%positive 1340) s1 = Some s2 /\
    scannedItems s2 = [newItem (js "Z9") 1340].
Proof.
  destruct (last_change_wins initial [(js "Z", 1000)] (js "Z9") 1040
              reachable_initial)
    as (s1 & h & Rn & _ & _ & Rf & _ & Early & Late).
  assert (Eh : h = 2%positive).
  { cbn in Rn. injection Rn as <-. cbn in Rf. now injection Rf as <-. }
  subst h. destruct (Late 1340) as [D A]; [lia|].
  exists s1. eexists. split; [exact Rn|]. split; [apply Early; lia|].
  split; [exact D|]. apply A; [discriminate | simpl; tauto].
Defined.

(** X10.  Pausing does not cancel the auto-save of this page.  A text typed
    while the session is enabled is still recorded when its timer runs
    after the session was paused: [toggleScanning] empties the field,
    but the timer holds the text and nothing clears the timer. *)
Theorem pause_keeps_pending_auto_save (s : Home) (v : jsstring)
  (now t : Z) :
  reachable s -> isScanning s = true -> now + 300 <= t ->
  trim v <> [] -> ~ In (trim v) (map serialNumber (scannedItems s)) ->
  exists s',
    run [InputChange v now; ToggleClick; TimerExpired (nextHandle s) t] s
      = Some s' /\
    isScanning s' = false /\
    scannedItems s' = scannedItems s ++ [newItem (trim v) t].
Proof.
  intros R I Le N A. apply debounce_reachable_ok in R.
  assert (F : Forall (fun x => (timerHandle x < nextHandle s)%positive)
                (match autoSaveTimeoutRef s with
                 | Some h => cancel h (timers s)
                 | None => timers s
                 end)).
  { destruct R as [F _ _ _].
    destruct (autoSaveTimeoutRef s); [now apply Forall_filter_keep | auto]. }
  cbn [run dispatch]. rewrite onChange_eq. unfold expire. simpl.
  rewrite (debounce_findTimer_fresh (nextHandle s)
             (mkTimer (nextHandle s) (now + 300) (SaveValue v)) _ eq_refl F).
  simpl. destruct (Z.leb_spec (now + 300) t); [|lia].
  rewrite autoSaveCallback_eq'. eexists. split; [reflexivity|].
  apply alreadyScanned_false in A.
  match goal with |- context [saveScannedBarcode v t ?x] =>
    destruct (debounce_save_cases v t x) as [[B _] | [_ ->]] end;
    [contradiction|].
  simpl. rewrite I, A. auto.
Qed.

(** [Z9] typed at 1000, the session paused, the timer at 1300. *)
Lemma pause_keeps_pending_auto_save_witness :
  exists s',
    run [InputChange (js "Z9") 1000; ToggleClick;
         TimerExpired 1%positive 1300] initial = Some s' /\
    isScanning s' = false /\ scannedItems s' = [newItem (js "Z9") 1300].
Proof.
  apply (pause_keeps_pending_auto_save initial (js "Z9") 1000 1300
           reachable_initial eq_refl).
  - lia.
  - discriminate.
  - simpl. tauto.
Defined.

Lemma mapIndexed_length {A B : Type} (f : A -> Z -> B) (l : list A) :
  forall index, List.length (mapIndexed f index l) = List.length l.
Proof.
  induction l as [|x l IH]; intros index; simpl; [reflexivity|].
  now rewrite IH.
Qed.

Lemma mapIndexed_nth {A B : Type} (f : A -> Z -> B) (l : list A) :
  forall index k x,
    nth_error l k = Some x ->
    nth_error (mapIndexed f index l) k = Some (f x (index + Z.of_nat k)).
Proof.
  induction l as [|y l IH]; intros index k x; destruct k as [|k]; simpl;
    try discriminate.
  - intros [= ->]. now rewrite Z.add_0_r.
  - intros H. rewrite (IH (index + 1) k x H). do 2 f_equal. lia.
Qed.

(** X11.  The exported sheet.  With no record nothing is handed to the
    library, the error message is set and no timer is armed.
    Otherwise the sheet is the header row followed by one row per
    record, in insertion order: row [k] holds the count [k] and the
    serial value of the [k]-th record. *)
Theorem export_rows (s : Home) (fileName : jsstring) (now : Z) :
  (scannedItems s = [] ->
   fst (downloadExcel fileName now s) = None /\
   timers (snd (downloadExcel fileName now s)) = timers s /\
   message (snd (downloadExcel fileName now s)) =
     Some (mkMessage error (js "No serial numbers to export!"))) /\
  (scannedItems s <> [] ->
   fst (downloadExcel fileName now s) = Some (exportData (scannedItems s))) /\
  List.length (exportData (scannedItems s)) =
    S (List.length (scannedItems s)) /\
  nth_error (exportData (scannedItems s)) 0 =
    Some [Str (js "Count"); Str (js "Serial Number")] /\
  (forall k item,
     nth_error (scannedItems s) k = Some item ->
     nth_error (exportData (scannedItems s)) (S k) =
       Some [Num (Z.of_nat (S k)); Str (serialNumber item)]).
Proof.
  split; [|split; [|split; [|split]]].
  - intros E. unfold downloadExcel. rewrite E. simpl. auto.
  - intros N. unfold downloadExcel.
    destruct (scannedItems s); [contradiction | reflexivity].
  - simpl. now rewrite mapIndexed_length.
  - reflexivity.
  - intros k item H. simpl.
    rewrite (mapIndexed_nth _ _ 0 k item H). do 3 f_equal. lia.
Qed.

(** Scenario: records [A1], [A2]. *)
Lemma export_rows_witness :
  let s := setScannedItems
             (fun _ => [newItem (js "A1") 1000; newItem (js "A2") 2000])
             initial in
  fst (downloadExcel (js "f.xlsx") 3000 s) =
    Some [[Str (js "Count"); Str (js "Serial Number")];
          [Num 1; Str (js "A1")]; [Num 2; Str (js "A2")]] /\
  fst (downloadExcel (js "f.xlsx") 3000 initial) = None.
Proof.
  intros s.
  destruct (export_rows s (js "f.xlsx") 3000) as (_ & H & _).
  destruct (export_rows initial (js "f.xlsx") 3000) as ((K & _) & _);
    [reflexivity|].
  split; [apply H; discriminate | exact K].
Defined.

End DebouncePageFacts.

(* ================================================================= *)
(** ** The input-field page with Enter *)

Section EnterPageFacts.

Import EnterPage.

Lemma enter_handleScanSuccess_items (v : jsstring) (now : Z) (s : Home) :
  scannedItems (handleScanSuccess v now s) =
  if alreadyScanned (scannedItems s) v
  then scannedItems s else scannedItems s ++ [newItem v now].
Proof.
  unfold handleScanSuccess. now destruct (alreadyScanned (scannedItems s) v).
Qed.

Lemma enter_handleInputKeyDown_items (e : KeyboardEvent) (now : Z)
  (s : Home) :
  scannedItems (handleInputKeyDown e now s) = scannedItems s \/
  (trim (currentScan s) <> [] /\
   ~ In (trim (currentScan s)) (map serialNumber (scannedItems s)) /\
   scannedItems (handleInputKeyDown e now s) =
     scannedItems s ++ [newItem (trim (currentScan s)) now]).
Proof.
  unfold handleInputKeyDown.
  destruct (isScanning s); simpl; [|now left].
  destruct (jsstring_eqb (key e) Enter); [|now left].
  destruct (truthy (trim (currentScan s))) eqn:T; [|now left].
  simpl. rewrite enter_handleScanSuccess_items.
  destruct (alreadyScanned _ _) eqn:A; [now left|]. right.
  split; [now apply truthy_true|]. split; [now apply alreadyScanned_false|].
  reflexivity.
Qed.

Lemma enter_ledger_dispatch (ev : Event) (s s' : Home) :
  ledgerOk (scannedItems s) -> dispatch ev s = Some s' ->
  ledgerOk (scannedItems s').
Proof.
  intros O. destruct ev as [e now|v|h now| |i|c now|f now]; simpl.
  - intros [= <-].
    destruct (enter_handleInputKeyDown_items e now s) as [-> | (N & A & ->)];
      [assumption | now apply ledgerOk_snoc].
  - now intros [= <-].
  - unfold expire. destruct (findTimer h (timers s)) as [t|]; [|discriminate].
    destruct (due t <=? now); [|discriminate]. now intros [= <-].
  - now intros [= <-].
  - intros [= <-]. simpl. now apply ledgerOk_filter.
  - intros [= <-]. unfold clearAll.
    destruct c; [apply ledgerOk_nil | assumption].
  - intros [= <-]. unfold downloadExcel. now destruct (Nat.eqb _ _).
Qed.

Lemma enter_reachable_run (evs : list Event) (s s' : Home) :
  reachable s -> run evs s = Some s' -> reachable s'.
Proof.
  revert s. induction evs as [|ev evs IH]; simpl; intros s W.
  - now intros [= <-].
  - destruct (dispatch ev s) as [x|] eqn:D; [|discriminate].
    apply IH. eapply reachable_dispatch; eassumption.
Qed.

(** X12.  On the Enter page every record comes from the trimmed field.  In
    every reachable state the serial values are trimmed, not empty and
    pairwise distinct. *)
Theorem enter_page_invariant (s : Home) :
  reachable s ->
  NoDup (map serialNumber (scannedItems s)) /\
  Forall (fun item => trim (serialNumber item) = serialNumber item
                      /\ serialNumber item <> []) (scannedItems s).
Proof.
  intros R.
  assert (O : ledgerOk (scannedItems s)).
  { induction R as [|s ev s' _ IH D]; [apply ledgerOk_nil|].
    eapply enter_ledger_dispatch; eassumption. }
  destruct O as [N T]. auto.
Qed.

(** [ X ] entered, then [X] entered again. *)
Lemma enter_page_invariant_witness :
  exists s,
    run [InputChange (js " X "); KeyDown (press Enter) 1000;
         InputChange (js "X"); KeyDown (press Enter) 2000] initial = Some s /\
    map serialNumber (scannedItems s) = [js "X"] /\
    NoDup (map serialNumber (scannedItems s)).
Proof.
  eexists. split; [vm_compute; reflexivity|]. split; [reflexivity|].
  refine (proj1 (enter_page_invariant _ _)).
  apply (enter_reachable_run
           [InputChange (js " X "); KeyDown (press Enter) 1000;
            InputChange (js "X"); KeyDown (press Enter) 2000] initial);
    [apply reachable_initial | vm_compute; reflexivity].
Defined.

(** X13.  Enter on the field.  While the session is enabled, Enter on a field
    that trims to nothing leaves the whole state as it is, blanks
    included.  Otherwise the field is emptied whether the value is
    accepted or rejected; a rejected duplicate sets the error message
    and arms no timer to clear it.  Handling Enter a second time,
    whenever, changes nothing more. *)
Theorem enter_on_field (s : Home) (e : KeyboardEvent) (now : Z) :
  isScanning s = true -> key e = Enter ->
  (trim (currentScan s) = [] -> handleInputKeyDown e now s = s) /\
  (trim (currentScan s) <> [] ->
   currentScan (handleInputKeyDown e now s) = [] /\
   (In (trim (currentScan s)) (map serialNumber (scannedItems s)) ->
    scannedItems (handleInputKeyDown e now s) = scannedItems s /\
    timers (handleInputKeyDown e now s) = timers s /\
    message (handleInputKeyDown e now s) =
      Some (mkMessage error (duplicateText (trim (currentScan s))))) /\
   (~ In (trim (currentScan s)) (map serialNumber (scannedItems s)) ->
    scannedItems (handleInputKeyDown e now s) =
      scannedItems s ++ [newItem (trim (currentScan s)) now])) /\
  (forall later,
     handleInputKeyDown e later (handleInputKeyDown e now s) =
     handleInputKeyDown e now s).
Proof.
  intros I K. unfold handleInputKeyDown at 1 2 3 4 5 6.
  rewrite I, K, jsstring_eqb_refl. cbn [negb].
  split; [|split].
  - intros ->. reflexivity.
  - intros N. rewrite (proj2 (truthy_true _) N).
    split; [reflexivity|]. split.
    + intros D. apply alreadyScanned_true in D.
      unfold handleScanSuccess. rewrite D. simpl. auto.
    + intros A. apply alreadyScanned_false in A.
      unfold handleScanSuccess. rewrite A. reflexivity.
  - intros later. unfold handleInputKeyDown.
    rewrite I, K, jsstring_eqb_refl. cbn [negb].
    destruct (truthy (trim (currentScan s))) eqn:T.
    + unfold handleScanSuccess.
      destruct (alreadyScanned _ _); simpl; now rewrite I.
    + now rewrite I, T.
Qed.

(** [XYZ] already recorded and entered again. *)
Lemma enter_on_field_witness :
  let s := mkHome [newItem (js "XYZ") 1000] true None (js "XYZ ") []
             1%positive in
  scannedItems (handleInputKeyDown (press Enter) 2000 s) = scannedItems s /\
  timers (handleInputKeyDown (press Enter) 2000 s) = [] /\
  currentScan (handleInputKeyDown (press Enter) 2000 s) = [].
Proof.
  intros s.
  destruct (enter_on_field s (press Enter) 2000 eq_refl eq_refl)
    as (_ & H & _).
  destruct H as (C & D & _); [discriminate|].
  destruct D as (E & T & _); [simpl; now left|].
  split; [exact E|]. split; [exact T | exact C].
Defined.

End EnterPageFacts.

(* ================================================================= *)
(** ** The keyboard page after two scans of one value *)

(** [X] entered, then [ X] flushed by the auto-save timer. *)
Lemma keyboard_serials_distinct_witness :
  exists s,
    Page.run [KeyDown (press (js "X")) 1000; KeyDown (press Enter) 1010;
              KeyDown (press (js " ")) 2000; KeyDown (press (js "X")) 2010;
              TimerExpired 4%positive 2210] initial = Some s /\
    map serialNumber (scannedItems s) = [js "X"] /\
    NoDup (map (fun item => trim (serialNumber item)) (scannedItems s)).
Proof.
  eexists. split; [vm_compute; reflexivity|]. split; [reflexivity|].
  refine (proj1 (keyboard_serials_distinct _ _)).
  apply (reachable_run
           [KeyDown (press (js "X")) 1000; KeyDown (press Enter) 1010;
            KeyDown (press (js " ")) 2000; KeyDown (press (js "X")) 2010;
            TimerExpired 4%positive 2210] initial);
    [apply reachable_initial | vm_compute; reflexivity].
Defined.
